(** * Catalog loader of advising-assistance-cpp (src/catalog.cpp, src/catalog.hpp)

    Shallow embedding of [Catalog::load], [Catalog::get], [Catalog::ids]
    and the helpers of the anonymous namespace of catalog.cpp.

    - [std::string] is [String.string], characters are 8-bit [ascii];
      the <cctype> functions are those of the "C" locale (ASCII only).
    - [std::unordered_map<std::string, Course>] is a [gmap string Course];
      its (unspecified) iteration order is the order of [map_to_list].
    - [std::set<std::string>] is a strictly sorted list of strings,
      ordered by [String.compare] (the byte order of [std::string::compare]).
    - The file system is a record of the queries the loader makes. *)

From Stdlib Require Import Ascii String List Bool Arith ZArith Lia OrderedTypeEx.
From stdpp Require Import base gmap sets list strings sorting.

Open Scope string_scope.

(* ------------------------------------------------------------------ *)
(** ** <cctype> in the "C" locale *)

Definition in_range (lo hi : nat) (c : ascii) : bool :=
  (lo <=? nat_of_ascii c)%nat && (nat_of_ascii c <=? hi)%nat.

Definition isupper (c : ascii) : bool := in_range 65 90 c.
Definition islower (c : ascii) : bool := in_range 97 122 c.
Definition isalpha (c : ascii) : bool := isupper c || islower c.
Definition isdigit (c : ascii) : bool := in_range 48 57 c.

Definition toupper (c : ascii) : ascii :=
  if islower c then ascii_of_nat (nat_of_ascii c - 32) else c.

(* ------------------------------------------------------------------ *)
(** ** Helpers of the anonymous namespace *)

(** The character set " \t\r\n" of [trim]. *)
Definition is_trim_char (c : ascii) : bool :=
  Ascii.eqb c " " || Ascii.eqb c "009" || Ascii.eqb c "013" || Ascii.eqb c "010".

(** [text.find_first_not_of(" \t\r\n")]; [None] is [string::npos]. *)
Fixpoint find_first_not_of (s : string) : option nat :=
  match s with
  | EmptyString => None
  | String c rest =>
      if is_trim_char c then option_map S (find_first_not_of rest) else Some 0%nat
  end.

(** [text.find_last_not_of(" \t\r\n")]. *)
Fixpoint find_last_not_of (s : string) : option nat :=
  match s with
  | EmptyString => None
  | String c rest =>
      match find_last_not_of rest with
      | Some i => Some (S i)
      | None => if is_trim_char c then None else Some 0%nat
      end
  end.

Definition trim (text : string) : string :=
  match find_first_not_of text with
  | None => ""
  | Some first =>
      match find_last_not_of text with
      | None => ""
      | Some last => substring first (last - first + 1) text
      end
  end.

Fixpoint toUpper (value : string) : string :=
  match value with
  | EmptyString => EmptyString
  | String ch rest => String (toupper ch) (toUpper rest)
  end.

(** The loop of [isCourseIdValid] over the characters, carrying
    [hasLetter] and [hasDigit]. *)
Fixpoint courseId_loop (s : string) (hasLetter hasDigit : bool) : bool :=
  match s with
  | EmptyString => hasLetter && hasDigit
  | String ch rest =>
      if isalpha ch then
        if hasDigit then false else courseId_loop rest true hasDigit
      else if isdigit ch then courseId_loop rest hasLetter true
      else false
  end.

Definition isCourseIdValid (courseId : string) : bool :=
  match courseId with
  | EmptyString => false
  | _ => courseId_loop courseId false false
  end.

(** Repeated [std::getline(stream, piece, delim)] over a whole stream:
    a piece ends at [delim] (which is consumed) or at end of input; a
    call that reaches end of input having extracted nothing fails and
    ends the loop. [cur] is the piece being extracted. *)
Fixpoint getline_loop (delim : ascii) (s cur : string) : list string :=
  match s with
  | EmptyString => match cur with EmptyString => [] | _ => [cur] end
  | String c rest =>
      if Ascii.eqb c delim then cur :: getline_loop delim rest ""
      else getline_loop delim rest (cur ++ String c "")
  end.

Definition getlines (delim : ascii) (s : string) : list string :=
  getline_loop delim s "".

(** [std::to_string] of a [std::size_t]. *)
Fixpoint uint_to_string (d : Decimal.uint) : string :=
  match d with
  | Decimal.Nil => ""
  | Decimal.D0 d => String "0" (uint_to_string d)
  | Decimal.D1 d => String "1" (uint_to_string d)
  | Decimal.D2 d => String "2" (uint_to_string d)
  | Decimal.D3 d => String "3" (uint_to_string d)
  | Decimal.D4 d => String "4" (uint_to_string d)
  | Decimal.D5 d => String "5" (uint_to_string d)
  | Decimal.D6 d => String "6" (uint_to_string d)
  | Decimal.D7 d => String "7" (uint_to_string d)
  | Decimal.D8 d => String "8" (uint_to_string d)
  | Decimal.D9 d => String "9" (uint_to_string d)
  end.

Definition to_string (n : nat) : string := uint_to_string (Nat.to_uint n).

(* ------------------------------------------------------------------ *)
(** ** std::set<std::string> *)

(** [s.insert(x)] on a set kept as a strictly increasing list; the
    boolean is the [.second] of the returned pair. *)
Fixpoint strset_insert (x : string) (s : list string) : list string * bool :=
  match s with
  | [] => ([x], true)
  | y :: ys =>
      match String.compare x y with
      | Lt => (x :: y :: ys, true)
      | Eq => (y :: ys, false)
      | Gt => let '(ys', b) := strset_insert x ys in (y :: ys', b)
      end
  end.

(* ------------------------------------------------------------------ *)
(** ** catalog.hpp *)

Record Course := {
  courseNumber : string;
  courseName : string;
  prerequisites : list string
}.

Record LoadResult := {
  ok : bool;
  courses : nat;
  warnings : list string;
  missingPrerequisites : list string;
  path : string
}.

Definition empty_result : LoadResult :=
  {| ok := false; courses := 0; warnings := []; missingPrerequisites := []; path := "" |}.

Record Catalog := {
  courseDirectory : gmap string Course;
  sortedCourseIds : list string
}.

(** A default-constructed [Catalog]. *)
Definition initial_catalog : Catalog :=
  {| courseDirectory := ∅; sortedCourseIds := [] |}.

(* ------------------------------------------------------------------ *)
(** ** The body of the read loop of [Catalog::load] *)

(** One iteration of the prerequisite loop (lines 169-185); the triple is
    ([seenPrereqs], [course.prerequisites], the warnings it appends). *)
Definition prereq_step (owner : string)
    (acc : list string * list string * list string) (col : string)
    : list string * list string * list string :=
  let '(seen, prereqs, warns) := acc in
  match col with
  | EmptyString => acc
  | _ =>
      let prereqId := toUpper col in
      if negb (isCourseIdValid prereqId) then
        (seen, prereqs,
         app warns ["Skipping invalid prerequisite '" ++ col ++ "' for course " ++ owner ++ "."])
      else
        let '(seen', inserted) := strset_insert prereqId seen in
        if negb inserted then
          (seen', prereqs,
           app warns ["Duplicate prerequisite '" ++ prereqId ++ "' ignored for course " ++ owner ++ "."])
        else (seen', app prereqs [prereqId], warns)
  end.

Definition process_prereqs (owner : string) (cols : list string) : list string * list string :=
  let '(_, prereqs, warns) := fold_left (prereq_step owner) cols ([], [], []) in
  (prereqs, warns).

(** Lines 139-185 for one line: the parsed course, if any, and the
    warnings the line produces before the directory insertion. *)
Definition parse_line (lineNumber : nat) (raw : string) : option Course * list string :=
  let line := trim raw in
  match line with
  | EmptyString => (None, [])
  | _ =>
      let columns := map trim (getlines "," line) in
      if (length columns <? 2)%nat then
        (None, ["Skipping line " ++ to_string lineNumber ++ ": expected course ID and name."])
      else
        let col0 := nth 0 columns "" in
        let courseId := toUpper col0 in
        if negb (isCourseIdValid courseId) then
          (None, ["Skipping line " ++ to_string lineNumber ++ ": invalid course ID '" ++ col0 ++ "'."])
        else
          let '(prereqs, ws) := process_prereqs courseId (drop 2 columns) in
          (Some {| courseNumber := courseId; courseName := nth 1 columns "";
                   prerequisites := prereqs |}, ws)
  end.

Record ParseState := {
  loadedCourseDirectory : gmap string Course;
  load_warnings : list string;
  lineNumber : nat
}.

Definition replace_warning (courseId : string) : string :=
  "Replacing existing course entry for " ++ courseId ++ ".".

(** One iteration of [while (std::getline(input, line))] (lines 137-192). *)
Definition load_line (st : ParseState) (raw : string) : ParseState :=
  let n := S (lineNumber st) in
  let dir := loadedCourseDirectory st in
  match parse_line n raw with
  | (None, ws) =>
      {| loadedCourseDirectory := dir; load_warnings := (load_warnings st ++ ws)%list; lineNumber := n |}
  | (Some course, ws) =>
      let repl := match dir !! courseNumber course with
                  | Some _ => [replace_warning (courseNumber course)]
                  | None => []
                  end in
      {| loadedCourseDirectory := <[courseNumber course := course]> dir;
         load_warnings := (load_warnings st ++ ws ++ repl)%list; lineNumber := n |}
  end.

Definition init_parse : ParseState :=
  {| loadedCourseDirectory := ∅; load_warnings := []; lineNumber := 0 |}.

Definition parse_lines (lines : list string) : ParseState :=
  fold_left load_line lines init_parse.

(** Lines 200-207: the dangling-prerequisite set. *)
Definition missing_step (dir : gmap string Course) (courseId : string)
    (ms : list string) (prereq : string) : list string :=
  match dir !! prereq with
  | None => fst (strset_insert (prereq ++ " (referenced by " ++ courseId ++ ")") ms)
  | Some _ => ms
  end.

Definition missing_set (dir : gmap string Course) : list string :=
  fold_left (fun ms (e : string * Course) =>
               fold_left (missing_step dir e.1) (prerequisites e.2) ms)
            (map_to_list dir) [].

(** Lines 210-215: the keys in iteration order, then [std::sort]. *)
Definition sorted_ids (dir : gmap string Course) : list string :=
  merge_sort String.le (map fst (map_to_list dir)).

(* ------------------------------------------------------------------ *)
(** ** The file system, as far as the loader queries it *)

(** POSIX paths are strings. [fs_exists] answers [std::filesystem::exists]
    and [fs_open] is [std::ifstream] opening a file, both on absolute paths;
    [current_path] is the working directory as its list of components. *)
Record FileSystem := {
  fs_exists : string -> bool;
  fs_open : string -> option string;
  current_path : list string
}.

Definition is_absolute (p : string) : bool :=
  match p with
  | String c _ => Ascii.eqb c "/"
  | EmptyString => false
  end.

Definition dir_string (cs : list string) : string :=
  match cs with
  | [] => "/"
  | _ => String.concat "" (map (fun c => "/" ++ c) cs)
  end.

(** [dir / rel] for an absolute directory and a relative [rel]. *)
Definition path_append (dir : list string) (rel : string) : string :=
  match dir with
  | [] => "/" ++ rel
  | _ => dir_string dir ++ "/" ++ rel
  end.

(** [fs::absolute]: an absolute path is returned as is, a relative one is
    appended to the working directory. *)
Definition absolute (fs : FileSystem) (p : string) : string :=
  if is_absolute p then p else path_append (current_path fs) p.

(** [fs::exists]: a relative path is looked up from the working directory. *)
Definition exists_path (fs : FileSystem) (p : string) : bool :=
  fs_exists fs (absolute fs p).

(** [parent_path] of an absolute directory; the root is its own parent,
    so [has_parent_path] holds for every absolute directory. *)
Definition parent_path (dir : list string) : list string := removelast dir.
Definition has_parent_path (dir : list string) : bool := true.

Definition kMaxParentSearchDepth : nat := 10.

(** The [for] loop of [resolveCourseFilePath] (lines 91-102), [fuel]
    being the iterations left. *)
Fixpoint search_parents (fs : FileSystem) (requested : string)
    (searchDir : list string) (fuel : nat) : option string :=
  match fuel with
  | O => None
  | S fuel' =>
      let candidate := path_append searchDir requested in
      if fs_exists fs candidate then Some (absolute fs candidate)
      else if negb (has_parent_path searchDir) then None
      else search_parents fs requested (parent_path searchDir) fuel'
  end.

Definition resolveCourseFilePath (fs : FileSystem) (fileName : string) : option string :=
  match fileName with
  | EmptyString => None
  | _ =>
      if is_absolute fileName then
        if exists_path fs fileName then Some (absolute fs fileName) else None
      else if exists_path fs fileName then Some (absolute fs fileName)
      else search_parents fs fileName (current_path fs) kMaxParentSearchDepth
  end.

(* ------------------------------------------------------------------ *)
(** ** Catalog::load, Catalog::get, Catalog::ids *)

(** The part of [Catalog::load] after the file is open (lines 131-225). *)
Definition load_contents (self : Catalog) (resolved : string) (contents : string)
    : LoadResult * Catalog :=
  let st := parse_lines (getlines "010" contents) in
  let loaded := loadedCourseDirectory st in
  if bool_decide (loaded = ∅) then
    ({| ok := false; courses := 0; warnings := load_warnings st;
        missingPrerequisites := []; path := resolved |}, self)
  else
    let missingSet := missing_set loaded in
    let sortedIds := sorted_ids loaded in
    ({| ok := true; courses := size loaded; warnings := load_warnings st;
        missingPrerequisites := missingSet; path := resolved |},
     {| courseDirectory := loaded; sortedCourseIds := sortedIds |}).

Definition load (fs : FileSystem) (self : Catalog) (fileName : string) : LoadResult * Catalog :=
  match fileName with
  | EmptyString =>
      ({| ok := false; courses := 0; warnings := ["File name is empty."];
          missingPrerequisites := []; path := "" |}, self)
  | _ =>
      match resolveCourseFilePath fs fileName with
      | None =>
          ({| ok := false; courses := 0; warnings := ["Unable to locate file: " ++ fileName];
              missingPrerequisites := []; path := fileName |}, self)
      | Some resolved =>
          match fs_open fs resolved with
          | None =>
              ({| ok := false; courses := 0; warnings := ["Unable to open file: " ++ resolved];
                  missingPrerequisites := []; path := resolved |}, self)
          | Some contents => load_contents self resolved contents
          end
      end
  end.

(** [Catalog::get]: [None] is the null pointer. *)
Definition get (self : Catalog) (id : string) : option Course :=
  courseDirectory self !! id.

(** [Catalog::ids]. *)
Definition ids (self : Catalog) : list string := sortedCourseIds self.

(** A file system holding a single readable file. *)
Definition single_file_fs (cwd : list string) (name contents : string) : FileSystem :=
  {| fs_exists := fun p => String.eqb p name;
     fs_open := fun p => if String.eqb p name then Some contents else None;
     current_path := cwd |}.

Definition nl : string := String "010" "".

(* ------------------------------------------------------------------ *)
(** ** Notions used to state the properties *)

(** The strict byte order of strings. *)
Definition strlt (a b : string) : Prop := String.compare a b = Lt.

(** Every character of [s] satisfies [p]. *)
Fixpoint all_chars (p : ascii -> bool) (s : string) : bool :=
  match s with
  | EmptyString => true
  | String c rest => p c && all_chars p rest
  end.

(** The identifier shape of the spec (section 4.1): one or more letters
    followed by one or more digits. *)
Definition id_shape (s : string) : Prop :=
  exists letters digits : string,
    s = letters ++ digits /\ letters <> "" /\ digits <> "" /\
    all_chars isalpha letters = true /\ all_chars isdigit digits = true.

(** Step 5 of section 4.2 read as written: the candidate fields from the
    third onward, with the prerequisites accepted so far for the record;
    the result is the accepted prerequisites and the warnings, in order. *)
Fixpoint spec_prereqs (owner : string) (accepted : list string) (fields : list string)
    : list string * list string :=
  match fields with
  | [] => ([], [])
  | field :: rest =>
      match field with
      | EmptyString => spec_prereqs owner accepted rest
      | _ =>
          let up := toUpper field in
          if negb (isCourseIdValid up) then
            let '(ps, ws) := spec_prereqs owner accepted rest in
            (ps, ("Skipping invalid prerequisite '" ++ field ++ "' for course " ++ owner ++ ".") :: ws)
          else if existsb (String.eqb up) accepted then
            let '(ps, ws) := spec_prereqs owner accepted rest in
            (ps, ("Duplicate prerequisite '" ++ up ++ "' ignored for course " ++ owner ++ ".") :: ws)
          else
            let '(ps, ws) := spec_prereqs owner (app accepted [up]) rest in
            (up :: ps, ws)
      end
  end.

(** The courses the lines of a file yield, in file order, line numbers
    counted from [n + 1]. *)
Fixpoint parsed_from (n : nat) (lines : list string) : list Course :=
  match lines with
  | [] => []
  | l :: ls =>
      match fst (parse_line (S n) l) with
      | Some c => c :: parsed_from (S n) ls
      | None => parsed_from (S n) ls
      end
  end.

Definition parsed_courses (lines : list string) : list Course := parsed_from 0 lines.

(** The description the spec gives a dangling reference (section 4.4). *)
Definition reference_description (missing owner : string) : string :=
  missing ++ " (referenced by " ++ owner ++ ")".

(** The catalog after a sequence of [load] calls on a fresh catalog. *)
Definition run_loads (calls : list (FileSystem * string)) : Catalog :=
  fold_left (fun self (call : FileSystem * string) => (load call.1 self call.2).2)
            calls initial_catalog.

(** The paths [load] may open for a file name: an absolute name as it is;
    a relative name under the working directory and under each of its
    first nine ancestors, in that order. *)
Definition ancestor (k : nat) (dir : list string) : list string :=
  Nat.iter k parent_path dir.

Definition search_candidates (fs : FileSystem) (fileName : string) : list string :=
  match fileName with
  | EmptyString => []
  | _ =>
      if is_absolute fileName then [fileName]
      else map (fun k => path_append (ancestor k (current_path fs)) fileName)
               (seq 0 kMaxParentSearchDepth)
  end.

(** ** Auxiliary predicates and sample inputs *)

Definition missing_file_fs : FileSystem :=
  {| fs_exists := fun _ => false; fs_open := fun _ => None; current_path := ["home"] |}.

Definition locked_file_fs : FileSystem :=
  {| fs_exists := fun p => String.eqb p "/home/c.csv"; fs_open := fun _ => None;
     current_path := ["home"] |}.

Definition catalog_fs : FileSystem :=
  single_file_fs ["data"] "/data/c.csv"
    ("CSCI200, Intro to CS, CSCI101" ++ nl ++ "CSCI101, Programming Fundamentals" ++ nl).

Definition parent_file_fs : FileSystem :=
  single_file_fs ["home"; "u"; "build"] "/home/u/courses.csv"
    ("CSCI200,Intro" ++ nl).

Definition sample_line : string := "CSCI200, Intro ,math101,, bad-1 ,MATH101,".

Definition sample_course : Course :=
  {| courseNumber := "CSCI200"; courseName := "Intro"; prerequisites := ["MATH101"] |}.

Definition sample_warnings : list string :=
  ["Skipping invalid prerequisite 'bad-1' for course CSCI200.";
   "Duplicate prerequisite 'MATH101' ignored for course CSCI200."].

Definition no_space (c : ascii) : bool := negb (Ascii.eqb c " ").

Definition directory_wf (dir : gmap string Course) : Prop :=
  forall k c, dir !! k = Some c ->
  courseNumber c = k /\ isCourseIdValid k = true /\
  Forall (fun p => isCourseIdValid p = true) (prerequisites c).

Definition dangling_fs : FileSystem :=
  single_file_fs [] "/c.csv"
    ("CSCI200,Intro,CSCI101,MATH999" ++ nl ++ "CSCI101,Programming" ++ nl).

Definition count_replace (k : string) (ws : list string) : nat :=
  length (List.filter (String.eqb (replace_warning k)) ws).

Definition absent (m : gmap string Course) (k : string) : nat :=
  match m !! k with Some _ => 0 | None => 1 end.

Definition duplicate_fs : FileSystem :=
  single_file_fs [] "/c.csv"
    ("CSCI200,Old,MATH1" ++ nl ++ "MATH1,Calculus" ++ nl ++ "csci200,New,CSCI101" ++ nl).

(* ------------------------------------------------------------------ *)
(** ** Further notions about the loader *)

(** Drop the leading, resp. trailing, characters satisfying [p]. *)
Fixpoint lstrip_by (p : ascii -> bool) (s : string) : string :=
  match s with
  | EmptyString => EmptyString
  | String c rest => if p c then lstrip_by p rest else s
  end.

Fixpoint rstrip_by (p : ascii -> bool) (s : string) : string :=
  match s with
  | EmptyString => EmptyString
  | String c rest =>
      match rstrip_by p rest with
      | EmptyString => if p c then EmptyString else String c EmptyString
      | r => String c r
      end
  end.

(** The text of a file whose lines are [ls], each ended by [eol]. *)
Definition join_lines (eol : string) (ls : list string) : string :=
  fold_right (fun l acc => l ++ eol ++ acc) "" ls.

Definition crlf : string := String "013" nl.

Definition no_newline (l : string) : bool := all_chars (fun c => negb (Ascii.eqb c "010")) l.

(** What every course of a loaded directory satisfies. *)
Definition course_wf (k : string) (c : Course) : Prop :=
  courseNumber c = k /\ isCourseIdValid k = true /\ toUpper k = k /\
  NoDup (prerequisites c) /\
  Forall (fun p => isCourseIdValid p = true /\ toUpper p = p) (prerequisites c).

Definition catalog_wf (self : Catalog) : Prop :=
  sortedCourseIds self = sorted_ids (courseDirectory self) /\
  forall k c, courseDirectory self !! k = Some c -> course_wf k c.

(* ================================================================== *)
(** * The Qt front end (src/models.cpp, src/mainwindow.cpp, src/main_gui.cpp)

    Text is ASCII: a [QString] is a [string] and [toStdString] and
    [fromStdString] are the identity; [tr] returns its argument (no
    translator is installed); [QString::arg] fills the lowest-numbered
    place marker, a [std::size_t] in decimal. A Qt [int] row is a [Z].
    The window is the record of the widget state the slots read and
    write; a message box is returned as a [Dialog]. *)

(** [QChar::isSpace] on ASCII: tab, line feed, vertical tab, form feed,
    carriage return and space. *)
Definition qt_isspace (c : ascii) : bool := in_range 9 13 c || Ascii.eqb c " ".

(** [QString::trimmed]. *)
Definition qtrimmed (s : string) : string := rstrip_by qt_isspace (lstrip_by qt_isspace s).

(** Text of ASCII characters only. On such text [qtrimmed] is
    [QString::trimmed] and [toUpper] is [QString::toUpper]; the
    properties of text the user types assume it. *)
Definition ascii_text (s : string) : bool := all_chars (fun c => Nat.ltb (nat_of_ascii c) 128) s.

(** [QString::toUpper] on ASCII text is [toUpper]; case folding for
    [Qt::CaseInsensitive] comparison lowers ASCII letters. *)
Definition tolower (c : ascii) : ascii :=
  if isupper c then ascii_of_nat (nat_of_ascii c + 32) else c.

Fixpoint toLower (s : string) : string :=
  match s with
  | EmptyString => EmptyString
  | String c rest => String (tolower c) (toLower rest)
  end.

(** [a.compare(b, Qt::CaseInsensitive) == 0]. *)
Definition equal_ci (a b : string) : bool := String.eqb (toLower a) (toLower b).

(** CourseListModel (models.cpp) over its [courseIds]. *)
Definition rowCount (courseIds : list string) : Z := Z.of_nat (length courseIds).

Definition courseIdForRow (courseIds : list string) (row : Z) : string :=
  if (row <? 0)%Z || (rowCount courseIds <=? row)%Z then ""
  else nth (Z.to_nat row) courseIds "".

Inductive StandardPixmap := SP_DialogApplyButton | SP_MessageBoxWarning.

(** A [QListWidgetItem] of the prerequisite list; [item_data] is the
    [Qt::UserRole] data as [toString()] reads it ("" when unset). *)
Record PrereqItem := {
  item_text : string;
  item_data : string;
  item_toolTip : string;
  item_icon : option StandardPixmap
}.

Record Window := {
  catalog : Catalog;
  lastLoadResult : LoadResult;
  currentCatalogPath : string;
  courseIds : list string;            (* courseListModel->courseIds *)
  selectedRow : option nat;           (* selection of courseListView *)
  searchText : string;                (* searchField->text() *)
  timerActive : bool;                 (* searchDelayTimer->isActive() *)
  courseTitle : string;               (* courseTitleLabel->text() *)
  prerequisiteItems : list PrereqItem;
  warningsVisible : bool;             (* warningsTitleLabel and warningsList *)
  warningsItems : list string;
  statusMessage : string * nat        (* text and timeout in ms, 0 = until replaced *)
}.

Inductive Dialog := Information (title text : string).

(** [statusBar()->showMessage(message, timeout)]. *)
Definition showMessage (w : Window) (message : string) (timeout : nat) : Window :=
  {| catalog := catalog w; lastLoadResult := lastLoadResult w;
     currentCatalogPath := currentCatalogPath w; courseIds := courseIds w;
     selectedRow := selectedRow w; searchText := searchText w; timerActive := timerActive w;
     courseTitle := courseTitle w; prerequisiteItems := prerequisiteItems w;
     warningsVisible := warningsVisible w; warningsItems := warningsItems w;
     statusMessage := (message, timeout) |}.

(** [MainWindow::refreshCourseList]: [setCourseIds] resets the model,
    which clears the selection of the view. *)
Definition refreshCourseList (w : Window) : Window :=
  {| catalog := catalog w; lastLoadResult := lastLoadResult w;
     currentCatalogPath := currentCatalogPath w; courseIds := ids (catalog w);
     selectedRow := None; searchText := searchText w; timerActive := timerActive w;
     courseTitle := courseTitle w; prerequisiteItems := prerequisiteItems w;
     warningsVisible := warningsVisible w; warningsItems := warningsItems w;
     statusMessage := statusMessage w |}.

(** [MainWindow::updateStatusFromLoad]. *)
Definition updateStatusFromLoad (w : Window) (result : LoadResult) : Window :=
  showMessage w ("Loaded " ++ to_string (courses result) ++ " courses from " ++ path result) 0.

(** [MainWindow::updateWarningsPane]: the list is cleared, then filled
    with the warnings when there are any. *)
Definition updateWarningsPane (w : Window) (result : LoadResult) : Window :=
  let hasWarnings := match warnings result with [] => false | _ => true end in
  {| catalog := catalog w; lastLoadResult := lastLoadResult w;
     currentCatalogPath := currentCatalogPath w; courseIds := courseIds w;
     selectedRow := selectedRow w; searchText := searchText w; timerActive := timerActive w;
     courseTitle := courseTitle w; prerequisiteItems := prerequisiteItems w;
     warningsVisible := hasWarnings;
     warningsItems := if hasWarnings then warnings result else [];
     statusMessage := statusMessage w |}.

(** The item [populateCourseDetails] adds for a prerequisite. *)
Definition prereq_item (self : Catalog) (prereqId : string) : PrereqItem :=
  match get self prereqId with
  | Some prereqCourse =>
      {| item_text := prereqId; item_data := prereqId;
         item_toolTip := courseName prereqCourse; item_icon := Some SP_DialogApplyButton |}
  | None =>
      {| item_text := prereqId; item_data := prereqId;
         item_toolTip := "Missing from catalog"; item_icon := Some SP_MessageBoxWarning |}
  end.

Definition none_item : PrereqItem :=
  {| item_text := "Prerequisites: none"; item_data := ""; item_toolTip := ""; item_icon := None |}.

(** [MainWindow::populateCourseDetails]; [None] is the null pointer. *)
Definition populateCourseDetails (w : Window) (course : option Course) : Window :=
  let '(title, items) :=
    match course with
    | None => ("Course not found.", [])
    | Some c =>
        (courseNumber c ++ " — " ++ courseName c,
         match prerequisites c with
         | [] => [none_item]
         | ps => map (prereq_item (catalog w)) ps
         end)
    end in
  {| catalog := catalog w; lastLoadResult := lastLoadResult w;
     currentCatalogPath := currentCatalogPath w; courseIds := courseIds w;
     selectedRow := selectedRow w; searchText := searchText w; timerActive := timerActive w;
     courseTitle := title; prerequisiteItems := items;
     warningsVisible := warningsVisible w; warningsItems := warningsItems w;
     statusMessage := statusMessage w |}.

(** [MainWindow::loadCatalogFromPath]. *)
Definition loadCatalogFromPath (fs : FileSystem) (w : Window) (p : string) : Window :=
  let '(result, cat) := load fs (catalog w) p in
  let w1 := {| catalog := cat; lastLoadResult := result;
               currentCatalogPath := currentCatalogPath w; courseIds := courseIds w;
               selectedRow := selectedRow w; searchText := searchText w;
               timerActive := timerActive w; courseTitle := courseTitle w;
               prerequisiteItems := prerequisiteItems w;
               warningsVisible := warningsVisible w; warningsItems := warningsItems w;
               statusMessage := statusMessage w |} in
  if negb (ok result) then
    showMessage (updateWarningsPane w1 result) ("Unable to load catalog: " ++ p) 4000
  else
    let w2 := {| catalog := catalog w1; lastLoadResult := lastLoadResult w1;
                 currentCatalogPath := path result; courseIds := courseIds w1;
                 selectedRow := selectedRow w1; searchText := searchText w1;
                 timerActive := timerActive w1; courseTitle := courseTitle w1;
                 prerequisiteItems := prerequisiteItems w1;
                 warningsVisible := warningsVisible w1; warningsItems := warningsItems w1;
                 statusMessage := statusMessage w1 |} in
    updateWarningsPane (updateStatusFromLoad (refreshCourseList w2) result) result.

(** [MainWindow::openCatalog]; [chosen] is what the file dialog returns
    ("" when it is cancelled). *)
Definition openCatalog (fs : FileSystem) (w : Window) (chosen : string) : Window :=
  match chosen with
  | EmptyString => w
  | _ => loadCatalogFromPath fs w chosen
  end.

(** [MainWindow::reloadCatalog]. *)
Definition reloadCatalog (fs : FileSystem) (w : Window) : Window * option Dialog :=
  match currentCatalogPath w with
  | EmptyString => (w, Some (Information "Reload Catalog" "Load a catalog first."))
  | p => (loadCatalogFromPath fs w p, None)
  end.

(** [MainWindow::handleCourseSelection] for the row of the clicked index. *)
Definition handleCourseSelection (w : Window) (row : Z) : Window :=
  match courseIdForRow (courseIds w) row with
  | EmptyString => w
  | courseId => populateCourseDetails w (get (catalog w) courseId)
  end.

Definition set_timer (w : Window) (active : bool) : Window :=
  {| catalog := catalog w; lastLoadResult := lastLoadResult w;
     currentCatalogPath := currentCatalogPath w; courseIds := courseIds w;
     selectedRow := selectedRow w; searchText := searchText w; timerActive := active;
     courseTitle := courseTitle w; prerequisiteItems := prerequisiteItems w;
     warningsVisible := warningsVisible w; warningsItems := warningsItems w;
     statusMessage := statusMessage w |}.

(** [MainWindow::handleSearchEdited]: [stop()] or [start()] the timer. *)
Definition handleSearchEdited (w : Window) (text : string) : Window :=
  match qtrimmed text with
  | EmptyString => set_timer w false
  | _ => set_timer w true
  end.

(** The user sets the selection of the view, or
    [selectionModel()->select(index, ClearAndSelect | Rows)]: an index
    out of the model's range is invalid and selects nothing. *)
Definition selectRow (w : Window) (row : nat) : Window :=
  if (row <? length (courseIds w))%nat then
    {| catalog := catalog w; lastLoadResult := lastLoadResult w;
       currentCatalogPath := currentCatalogPath w; courseIds := courseIds w;
       selectedRow := Some row; searchText := searchText w; timerActive := timerActive w;
       courseTitle := courseTitle w; prerequisiteItems := prerequisiteItems w;
       warningsVisible := warningsVisible w; warningsItems := warningsItems w;
       statusMessage := statusMessage w |}
  else w.

(** The [for] loop of [performSearch]: the first row whose id equals the
    key ignoring case. *)
Fixpoint find_row (ids : list string) (key : string) (row : nat) : option nat :=
  match ids with
  | [] => None
  | id :: rest => if equal_ci id key then Some row else find_row rest key (S row)
  end.

(** [MainWindow::performSearch]. *)
Definition performSearch (w : Window) : Window :=
  let trimmed := toUpper (qtrimmed (searchText w)) in
  match trimmed with
  | EmptyString => w
  | _ =>
      match get (catalog w) trimmed with
      | None => showMessage w ("Course not found: " ++ trimmed) 4000
      | Some course =>
          let w1 := populateCourseDetails w (Some course) in
          match find_row (ids (catalog w)) trimmed 0 with
          | Some row => selectRow w1 row
          | None => w1
          end
      end
  end.

(** [searchField->setText(text)]: [textChanged] is emitted, and so
    [handleSearchEdited] runs, when the text changes. *)
Definition setSearchText (w : Window) (text : string) : Window :=
  if String.eqb (searchText w) text then w
  else
    handleSearchEdited
      {| catalog := catalog w; lastLoadResult := lastLoadResult w;
         currentCatalogPath := currentCatalogPath w; courseIds := courseIds w;
         selectedRow := selectedRow w; searchText := text; timerActive := timerActive w;
         courseTitle := courseTitle w; prerequisiteItems := prerequisiteItems w;
         warningsVisible := warningsVisible w; warningsItems := warningsItems w;
         statusMessage := statusMessage w |} text.

(** [MainWindow::handlePrerequisiteActivated]; [None] is the null item. *)
Definition handlePrerequisiteActivated (w : Window) (item : option PrereqItem) : Window :=
  match item with
  | None => w
  | Some it =>
      match item_data it with
      | EmptyString => w
      | courseId => performSearch (setSearchText w courseId)
      end
  end.

(** [MainWindow::showMissingPrerequisites]. *)
Definition showMissingPrerequisites (w : Window) : Dialog :=
  match missingPrerequisites (lastLoadResult w) with
  | [] => Information "Missing Prerequisites" "All prerequisites were found in the catalog."
  | ms => Information "Missing Prerequisites"
            ("The following prerequisites reference missing courses:" ++ nl ++ nl ++
             String.concat nl ms)
  end.

(** The constructor: [createLayout] sets the initial widget texts, then
    [refreshCourseList] and the "Ready" message. *)
Definition MainWindow (catalogToUse : Catalog) : Window :=
  showMessage
    (refreshCourseList
       {| catalog := catalogToUse; lastLoadResult := empty_result;
          currentCatalogPath := ""; courseIds := []; selectedRow := None;
          searchText := ""; timerActive := false;
          courseTitle := "Select a course to view details"; prerequisiteItems := [];
          warningsVisible := false; warningsItems := []; statusMessage := ("", 0) |})
    "Ready" 0.

(** [main] of main_gui.cpp: [arg] is [argv[1]] when [argc > 1]. *)
Definition startup (fs : FileSystem) (arg : option string) : Window :=
  let cat := match arg with
             | Some a => (load fs initial_catalog a).2
             | None => initial_catalog
             end in
  MainWindow cat.

(** What the user does with the window. *)
Inductive Event :=
| OpenCatalog (fs : FileSystem) (chosen : string)  (* File > Open CSV... *)
| ReloadCatalog (fs : FileSystem)                  (* File > Reload *)
| ClickCourse (row : nat)                          (* a click on a row of the list *)
| EditSearch (text : string)                       (* the search field is edited *)
| SearchTimeout                                    (* searchDelayTimer fires *)
| ActivatePrerequisite (i : nat)                   (* item [i] of the prerequisite list *)
| ShowMissing.                                     (* View > Show Missing Prereqs *)

Definition step (w : Window) (e : Event) : Window * option Dialog :=
  match e with
  | OpenCatalog fs chosen => (openCatalog fs w chosen, None)
  | ReloadCatalog fs => reloadCatalog fs w
  | ClickCourse row =>
      if (row <? length (courseIds w))%nat
      then (handleCourseSelection (selectRow w row) (Z.of_nat row), None)
      else (w, None)
  | EditSearch text =>
      (handleSearchEdited
         {| catalog := catalog w; lastLoadResult := lastLoadResult w;
            currentCatalogPath := currentCatalogPath w; courseIds := courseIds w;
            selectedRow := selectedRow w; searchText := text; timerActive := timerActive w;
            courseTitle := courseTitle w; prerequisiteItems := prerequisiteItems w;
            warningsVisible := warningsVisible w; warningsItems := warningsItems w;
            statusMessage := statusMessage w |} text, None)
  | SearchTimeout =>
      if timerActive w then (performSearch (set_timer w false), None) else (w, None)
  | ActivatePrerequisite i =>
      (handlePrerequisiteActivated w (nth_error (prerequisiteItems w) i), None)
  | ShowMissing => (w, Some (showMissingPrerequisites w))
  end.

Definition run_events (w : Window) (es : list Event) : Window :=
  fold_left (fun w e => (step w e).1) es w.

(** The state the slots keep. *)
Definition window_inv (w : Window) : Prop :=
  courseIds w = ids (catalog w) /\
  catalog_wf (catalog w) /\
  (currentCatalogPath w = "" \/ is_absolute (currentCatalogPath w) = true) /\
  (ok (lastLoadResult w) = true ->
   missingPrerequisites (lastLoadResult w) = missing_set (courseDirectory (catalog w))) /\
  (ok (lastLoadResult w) = false -> missingPrerequisites (lastLoadResult w) = []) /\
  Forall (fun it => item_data it = "" \/
                    (isCourseIdValid (item_data it) = true /\ toUpper (item_data it) = item_data it))
         (prerequisiteItems w).


Definition items_ok (items : list PrereqItem) : Prop :=
  Forall (fun it => item_data it = "" \/
                    (isCourseIdValid (item_data it) = true /\ toUpper (item_data it) = item_data it))
         items.

Definition dangling_course : Course :=
  {| courseNumber := "CSCI200"; courseName := "Intro"; prerequisites := ["CSCI101"; "MATH999"] |}.


(** Whether a message starts with the letter U, as the messages of a
    load that does not get to parse the file do. *)
Definition starts_with_U (w : string) : bool :=
  match w with
  | String c _ => Ascii.eqb c "U"
  | EmptyString => false
  end.

(* ================================================================== *)
(** * Proofs *)

(** ** Evaluation on the spec scenarios *)

Example trim_ex : trim "  CSCI200 , x  " = "CSCI200 , x".
Proof. reflexivity. Qed.

Example valid_ex :
  map isCourseIdValid ["CSCI200"; "200CSCI"; "CSCI"; "200"; ""; "CS-200"; "C2D3"]
  = [true; false; false; false; false; false; false].
Proof. reflexivity. Qed.

Example scenario1 :
  let '(r, c) := load (single_file_fs ["data"] "/data/c.csv"
                         ("CSCI200, Intro to CS, CSCI101" ++ nl ++ "CSCI101, Programming Fundamentals" ++ nl))
                      initial_catalog "c.csv" in
  (ok r, courses r, missingPrerequisites r, ids c,
   option_map prerequisites (get c "CSCI200"))
  = (true, 2%nat, [], ["CSCI101"; "CSCI200"], Some ["CSCI101"]).
Proof. vm_compute. reflexivity. Qed.

Example scenario2 :
  let '(r, c) := load (single_file_fs [] "/c.csv" ("csci200,Intro,MATH999" ++ nl))
                      initial_catalog "/c.csv" in
  (ok r, courses r, missingPrerequisites r, ids c)
  = (true, 1%nat, ["MATH999 (referenced by CSCI200)"], ["CSCI200"]).
Proof. vm_compute. reflexivity. Qed.

Example scenario3 :
  let '(r, c) := load (single_file_fs [] "/c.csv" ("200CSCI,Bad ID" ++ nl))
                      initial_catalog "/c.csv" in
  (ok r, warnings r) = (false, ["Skipping line 1: invalid course ID '200CSCI'."]).
Proof. vm_compute. reflexivity. Qed.

Example scenario5 :
  let '(r, c) := load (single_file_fs [] "/c.csv"
                         ("CSCI200,Old,MATH1" ++ nl ++ "CSCI200,New" ++ nl))
                      initial_catalog "/c.csv" in
  (ok r, courses r, warnings r, get c "CSCI200")
  = (true, 1%nat, ["Replacing existing course entry for CSCI200."],
     Some {| courseNumber := "CSCI200"; courseName := "New"; prerequisites := [] |}).
Proof. vm_compute. reflexivity. Qed.

Example getlines_ex : getlines "," "a,,b," = ["a"; ""; "b"].
Proof. reflexivity. Qed.
Example to_string_ex : to_string 120 = "120".
Proof. reflexivity. Qed.


(* ------------------------------------------------------------------ *)
(** ** The outcome of a load *)

Lemma load_nonempty (fs : FileSystem) (self : Catalog) (fileName : string) :
  fileName <> "" ->
  load fs self fileName =
    match resolveCourseFilePath fs fileName with
    | None =>
        ({| ok := false; courses := 0; warnings := ["Unable to locate file: " ++ fileName];
            missingPrerequisites := []; path := fileName |}, self)
    | Some resolved =>
        match fs_open fs resolved with
        | None =>
            ({| ok := false; courses := 0; warnings := ["Unable to open file: " ++ resolved];
                missingPrerequisites := []; path := resolved |}, self)
        | Some contents => load_contents self resolved contents
        end
    end.
Proof. destruct fileName; [congruence | reflexivity]. Qed.

Lemma resolve_empty (fs : FileSystem) : resolveCourseFilePath fs "" = None.
Proof. reflexivity. Qed.

(** The report of a load does not depend on the catalog it runs on, and
    neither does the new state of a successful load. *)
Lemma load_contents_result (self self' : Catalog) (resolved contents : string) :
  (load_contents self resolved contents).1 = (load_contents self' resolved contents).1 /\
  (ok (load_contents self resolved contents).1 = true ->
   (load_contents self resolved contents).2 = (load_contents self' resolved contents).2) /\
  (ok (load_contents self resolved contents).1 = false ->
   (load_contents self resolved contents).2 = self).
Proof.
  unfold load_contents. case_bool_decide; simpl; split; auto; split; auto; discriminate.
Qed.

Lemma load_result_indep (fs : FileSystem) (self self' : Catalog) (fileName : string) :
  (load fs self fileName).1 = (load fs self' fileName).1 /\
  (ok (load fs self fileName).1 = true -> (load fs self fileName).2 = (load fs self' fileName).2) /\
  (ok (load fs self fileName).1 = false -> (load fs self fileName).2 = self).
Proof.
  destruct (decide (fileName = "")) as [->|Hne]; [simpl; split; auto; split; auto; discriminate|].
  rewrite !load_nonempty by exact Hne.
  destruct (resolveCourseFilePath fs fileName) as [resolved|];
    [|simpl; split; auto; split; auto; discriminate].
  destruct (fs_open fs resolved) as [contents|];
    [apply load_contents_result|simpl; split; auto; split; auto; discriminate].
Qed.

Lemma path_append_absolute (d : list string) (r : string) :
  is_absolute (path_append d r) = true.
Proof. destruct d as [|c [|c' cs]]; reflexivity. Qed.

Lemma absolute_of_absolute (fs : FileSystem) (p : string) :
  is_absolute p = true -> absolute fs p = p.
Proof. unfold absolute. intros ->. reflexivity. Qed.

Lemma search_parents_find (fs : FileSystem) (requested : string) (fuel : nat) (d : list string) :
  search_parents fs requested d fuel =
  find (fs_exists fs) (map (fun k => path_append (ancestor k d) requested) (seq 0 fuel)).
Proof.
  revert d; induction fuel as [|fuel IH]; intros d; [reflexivity|].
  cbn [search_parents seq map find].
  rewrite absolute_of_absolute by apply path_append_absolute.
  change (ancestor 0 d) with d.
  destruct (fs_exists fs (path_append d requested)); [reflexivity|].
  simpl. rewrite IH, <- seq_shift, map_map. f_equal. apply map_ext. intros k.
  unfold ancestor. rewrite Nat.iter_succ_r. reflexivity.
Qed.

Lemma resolve_find (fs : FileSystem) (fileName : string) :
  resolveCourseFilePath fs fileName = find (fs_exists fs) (search_candidates fs fileName).
Proof.
  destruct fileName as [|a s]; [reflexivity|].
  unfold resolveCourseFilePath, search_candidates, exists_path.
  destruct (is_absolute (String a s)) eqn:Habs.
  - rewrite absolute_of_absolute by exact Habs. simpl.
    destruct (fs_exists fs (String a s)); reflexivity.
  - rewrite search_parents_find. unfold absolute. rewrite Habs.
    unfold kMaxParentSearchDepth. cbn [seq map find]. change (ancestor 0 ?d) with d.
    destruct (fs_exists fs (path_append (current_path fs) (String a s))); reflexivity.
Qed.

Lemma find_absolute (fs : FileSystem) (fileName p : string) :
  find (fs_exists fs) (search_candidates fs fileName) = Some p -> is_absolute p = true.
Proof.
  intros Hf. apply find_some in Hf as [Hin _].
  destruct fileName as [|a s]; [destruct Hin|].
  unfold search_candidates in Hin. destruct (is_absolute (String a s)) eqn:Habs.
  - destruct Hin as [<-|[]]. exact Habs.
  - apply in_map_iff in Hin as (k & <- & _). apply path_append_absolute.
Qed.

Lemma resolve_absolute (fs : FileSystem) (fileName p : string) :
  resolveCourseFilePath fs fileName = Some p -> is_absolute p = true.
Proof. rewrite resolve_find. apply find_absolute. Qed.

(* ------------------------------------------------------------------ *)
(** ** Claims on the outcome of [load] *)

(** C1: a load either fails, and then the catalog is left as it was (so
    [get] and [ids] answer as before), or it succeeds, and then the file
    was found and opened, its lines yield a non-empty directory, and the
    catalog becomes that directory with its sorted identifiers. *)
Theorem load_atomic_commit (fs : FileSystem) (self : Catalog) (fileName : string) :
  let '(r, self') := load fs self fileName in
  (ok r = false /\ self' = self /\
   (forall id, get self' id = get self id) /\ ids self' = ids self) \/
  (ok r = true /\
   exists resolved contents,
     resolveCourseFilePath fs fileName = Some resolved /\
     fs_open fs resolved = Some contents /\
     let loaded := loadedCourseDirectory (parse_lines (getlines "010" contents)) in
     loaded <> ∅ /\ courseDirectory self' = loaded /\ sortedCourseIds self' = sorted_ids loaded).
Proof.
  destruct (decide (fileName = "")) as [->|Hne]; [left; simpl; auto|].
  rewrite load_nonempty by exact Hne.
  destruct (resolveCourseFilePath fs fileName) as [resolved|] eqn:Hres; [|left; simpl; auto].
  destruct (fs_open fs resolved) as [contents|] eqn:Hopen; [|left; simpl; auto].
  unfold load_contents. case_bool_decide as Hemp; [left; simpl; auto|].
  right. simpl. split; [reflexivity|]. exists resolved, contents. auto.
Qed.

(** C9: [load ""] reports an empty file name, and nothing else, whatever
    the file system, and leaves the catalog unchanged. *)
Theorem load_empty_file_name (fs fs' : FileSystem) (self : Catalog) :
  load fs self "" =
    ({| ok := false; courses := 0; warnings := ["File name is empty."];
        missingPrerequisites := []; path := "" |}, self) /\
  load fs' self "" = load fs self "".
Proof. split; reflexivity. Qed.

(** C10: when a non-empty name cannot be located the report carries the
    name as given; when it is located but cannot be opened, the report
    carries the resolved path, which is absolute. *)
Theorem load_failure_path (fs : FileSystem) (self : Catalog) (fileName : string) :
  fileName <> "" ->
  (resolveCourseFilePath fs fileName = None ->
   ok (load fs self fileName).1 = false /\ path (load fs self fileName).1 = fileName) /\
  (forall resolved, resolveCourseFilePath fs fileName = Some resolved ->
   fs_open fs resolved = None ->
   ok (load fs self fileName).1 = false /\ path (load fs self fileName).1 = resolved /\
   is_absolute resolved = true).
Proof.
  intros Hne. rewrite load_nonempty by exact Hne. split.
  - intros ->. auto.
  - intros resolved Hres Hopen. rewrite Hres, Hopen. simpl.
    split; [reflexivity|]. split; [reflexivity|]. exact (resolve_absolute _ _ _ Hres).
Qed.

Lemma load_failure_path_witness :
  "c.csv" <> "" /\
  path (load missing_file_fs initial_catalog "c.csv").1 = "c.csv" /\
  path (load locked_file_fs initial_catalog "c.csv").1 = "/home/c.csv".
Proof.
  split; [intros [=]|]. split.
  - destruct (load_failure_path missing_file_fs initial_catalog "c.csv") as [Hnone _];
      [discriminate|].
    apply Hnone. vm_compute. reflexivity.
  - destruct (load_failure_path locked_file_fs initial_catalog "c.csv") as [_ Hsome];
      [discriminate|].
    apply (Hsome "/home/c.csv"); vm_compute; reflexivity.
Defined.

(** C8: loading again a file that loaded successfully gives the same
    report and leaves the catalog exactly as the first load left it. *)
Theorem load_idempotent (fs : FileSystem) (self : Catalog) (fileName : string) :
  ok (load fs self fileName).1 = true ->
  let self1 := (load fs self fileName).2 in
  (load fs self1 fileName).2 = self1 /\ (load fs self1 fileName).1 = (load fs self fileName).1.
Proof.
  intros Hok. simpl.
  destruct (load_result_indep fs (load fs self fileName).2 self fileName) as (Hr & Hs & _).
  split; [|exact Hr].
  apply Hs. rewrite Hr. exact Hok.
Qed.

Lemma load_idempotent_witness :
  ok (load catalog_fs initial_catalog "c.csv").1 = true /\
  (load catalog_fs (load catalog_fs initial_catalog "c.csv").2 "c.csv").2
  = (load catalog_fs initial_catalog "c.csv").2.
Proof.
  split; [vm_compute; reflexivity|].
  apply (load_idempotent catalog_fs initial_catalog "c.csv"). vm_compute. reflexivity.
Defined.

(** C3, as stated, fails: a relative name absent from the working
    directory is still loaded from a parent directory. *)
Lemma load_searches_parent_directory :
  exists_path parent_file_fs "courses.csv" = false /\
  ok (load parent_file_fs initial_catalog "courses.csv").1 = true /\
  path (load parent_file_fs initial_catalog "courses.csv").1 = "/home/u/courses.csv".
Proof. vm_compute. auto. Qed.

Lemma prereq_step_warnings (owner : string) (acc : list string * list string * list string)
    (col : string) :
  Forall (fun w => starts_with_U w = false) acc.2 ->
  Forall (fun w => starts_with_U w = false) (prereq_step owner acc col).2.
Proof.
  destruct acc as [[seen ps] ws]. cbn [snd]. intros Hws. unfold prereq_step.
  destruct col as [|a col]; [exact Hws|].
  destruct (negb (isCourseIdValid (toUpper (String a col)))).
  { cbn [snd]. apply List.Forall_app. split; [exact Hws|]. constructor; [reflexivity|constructor]. }
  destruct (strset_insert (toUpper (String a col)) seen) as [seen' inserted].
  destruct (negb inserted); cbn [snd]; [|exact Hws].
  apply List.Forall_app. split; [exact Hws|]. constructor; [reflexivity|constructor].
Qed.

Lemma process_prereqs_warnings (owner : string) (cols : list string) :
  Forall (fun w => starts_with_U w = false) (process_prereqs owner cols).2.
Proof.
  unfold process_prereqs.
  assert (H : forall acc, Forall (fun w => starts_with_U w = false) acc.2 ->
              Forall (fun w => starts_with_U w = false) (fold_left (prereq_step owner) cols acc).2).
  { induction cols as [|col cols IH]; intros acc Hacc; [exact Hacc|].
    simpl. apply IH, prereq_step_warnings, Hacc. }
  specialize (H ([], [], []) ltac:(constructor)).
  destruct (fold_left (prereq_step owner) cols ([], [], [])) as [[seen ps] ws]. exact H.
Qed.

Lemma parse_line_warnings (n : nat) (raw : string) :
  Forall (fun w => starts_with_U w = false) (parse_line n raw).2.
Proof.
  unfold parse_line. destruct (trim raw) as [|a line]; [constructor|].
  destruct (length (map trim (getlines "," (String a line))) <? 2)%nat.
  { constructor; [reflexivity|constructor]. }
  destruct (negb (isCourseIdValid _)).
  { constructor; [reflexivity|constructor]. }
  pose proof (process_prereqs_warnings (toUpper (nth 0 (map trim (getlines "," (String a line))) ""))
                (drop 2 (map trim (getlines "," (String a line))))) as H.
  destruct (process_prereqs _ _) as [ps ws]. exact H.
Qed.

Lemma parse_lines_warnings (lines : list string) :
  Forall (fun w => starts_with_U w = false) (load_warnings (parse_lines lines)).
Proof.
  unfold parse_lines.
  assert (H : forall st, Forall (fun w => starts_with_U w = false) (load_warnings st) ->
              Forall (fun w => starts_with_U w = false) (load_warnings (fold_left load_line lines st))).
  { induction lines as [|l lines IH]; intros st Hst; [exact Hst|].
    simpl. apply IH. unfold load_line.
    pose proof (parse_line_warnings (S (lineNumber st)) l) as Hl.
    destruct (parse_line (S (lineNumber st)) l) as [[c|] ws]; cbn [load_warnings snd] in Hl |- *.
    - apply List.Forall_app. split; [exact Hst|]. apply List.Forall_app. split; [exact Hl|].
      destruct (loadedCourseDirectory st !! courseNumber c); constructor; [reflexivity|constructor].
    - apply List.Forall_app. split; [exact Hst|exact Hl]. }
  apply H. constructor.
Qed.

Lemma load_contents_warnings (self : Catalog) (resolved contents : string) :
  Forall (fun w => starts_with_U w = false) (warnings (load_contents self resolved contents).1).
Proof.
  unfold load_contents. destruct (bool_decide _); apply parse_lines_warnings.
Qed.

(** C3 (amended): [load] opens the first existing path among
    [search_candidates]: an absolute name itself; a relative name under
    the working directory, then under each of its first nine ancestors.
    When there is one, [load] opens that path and, if it opens, parses
    its contents, and nothing else; otherwise it fails with "Unable to
    locate file". It reports that failure exactly when no candidate
    exists. *)
Theorem load_resolves_by_candidates (fs : FileSystem) (self : Catalog) (fileName : string) :
  resolveCourseFilePath fs fileName = find (fs_exists fs) (search_candidates fs fileName) /\
  (forall p, find (fs_exists fs) (search_candidates fs fileName) = Some p ->
   path (load fs self fileName).1 = p /\
   load fs self fileName =
     match fs_open fs p with
     | Some contents => load_contents self p contents
     | None =>
         ({| ok := false; courses := 0; warnings := ["Unable to open file: " ++ p];
             missingPrerequisites := []; path := p |}, self)
     end) /\
  (fileName <> "" -> find (fs_exists fs) (search_candidates fs fileName) = None ->
   load fs self fileName =
     ({| ok := false; courses := 0; warnings := ["Unable to locate file: " ++ fileName];
         missingPrerequisites := []; path := fileName |}, self)) /\
  (fileName <> "" ->
   (ok (load fs self fileName).1 = false /\
    warnings (load fs self fileName).1 = ["Unable to locate file: " ++ fileName]) <->
   find (fs_exists fs) (search_candidates fs fileName) = None).
Proof.
  split; [apply resolve_find|]. rewrite <- resolve_find. split; [|split].
  - intros p Hp. destruct (decide (fileName = "")) as [->|Hne]; [discriminate|].
    rewrite load_nonempty, Hp by exact Hne.
    destruct (fs_open fs p) as [contents|]; [|split; reflexivity].
    split; [|reflexivity]. unfold load_contents. case_bool_decide; reflexivity.
  - intros Hne Hn. rewrite load_nonempty, Hn by exact Hne. reflexivity.
  - intros Hne. rewrite load_nonempty by exact Hne.
    destruct (resolveCourseFilePath fs fileName) as [p|]; [|split; [intros _; reflexivity|auto]].
    split; [|discriminate]. intros [_ Hw].
    destruct (fs_open fs p) as [contents|].
    + pose proof (load_contents_warnings self p contents) as Hu. rewrite Hw in Hu.
      inversion Hu as [|x l Hx _]. discriminate Hx.
    + cbn [fst warnings] in Hw. injection Hw as Hw. discriminate Hw.
Qed.

(* ------------------------------------------------------------------ *)
(** ** The identifier validator *)

Lemma alpha_not_digit (c : ascii) : isalpha c = true -> isdigit c = false.
Proof.
  unfold isalpha, isupper, islower, isdigit, in_range.
  generalize (nat_of_ascii c) as n. intros n.
  destruct (Nat.leb_spec 65 n), (Nat.leb_spec n 90), (Nat.leb_spec 97 n),
    (Nat.leb_spec n 122), (Nat.leb_spec 48 n), (Nat.leb_spec n 57);
    simpl; intros; try lia; congruence.
Qed.

Lemma courseId_loop_digits (s : string) (hasLetter : bool) :
  courseId_loop s hasLetter true = hasLetter && all_chars isdigit s.
Proof.
  induction s as [|ch rest IH]; simpl; [reflexivity|].
  destruct (isalpha ch) eqn:Ha.
  - rewrite (alpha_not_digit _ Ha). destruct hasLetter; reflexivity.
  - destruct (isdigit ch); [exact IH|]. destruct hasLetter; reflexivity.
Qed.

Lemma str_app_nil (d : string) : "" ++ d = d.
Proof. reflexivity. Qed.

Lemma str_app_cons (c : ascii) (l d : string) : String c l ++ d = String c (l ++ d).
Proof. reflexivity. Qed.

Lemma string_app_nil_inv (l d : string) : l ++ d = "" -> l = "" /\ d = "".
Proof. destruct l, d; simpl; try discriminate; auto. Qed.

Lemma courseId_loop_shape (s : string) (hasLetter : bool) :
  courseId_loop s hasLetter false = true <->
  exists letters digits : string,
    s = letters ++ digits /\ digits <> "" /\
    all_chars isalpha letters = true /\ all_chars isdigit digits = true /\
    (hasLetter = true \/ letters <> "").
Proof.
  revert hasLetter. induction s as [|ch rest IH]; intros hasLetter.
  - simpl. rewrite andb_false_r. split; [intros [=]|].
    intros (l & d & Hs & Hd & _). symmetry in Hs.
    apply string_app_nil_inv in Hs as [_ ?]. contradiction.
  - simpl. destruct (isalpha ch) eqn:Ha; [|destruct (isdigit ch) eqn:Hd].
    + rewrite IH. split.
      * intros (l & d & -> & Hd & Hl & Hdd & _).
        exists (String ch l), d. simpl. rewrite Ha, Hl.
        repeat split; auto; right; discriminate.
      * intros ([|c l] & d & Hs & Hd & Hl & Hdd & _); rewrite ?str_app_nil, ?str_app_cons in Hs.
        { subst d. simpl in Hdd. rewrite (alpha_not_digit _ Ha) in Hdd. discriminate. }
        injection Hs as -> ->. simpl in Hl. apply andb_true_iff in Hl as [_ Hl].
        exists l, d. repeat split; auto.
    + rewrite courseId_loop_digits. split.
      * intros [Hh Hr]%andb_true_iff. exists "", (String ch rest). simpl.
        rewrite Hd, Hr. repeat split; auto; discriminate.
      * intros ([|c l] & d & Hs & _ & Hl & Hdd & Hh); rewrite ?str_app_nil, ?str_app_cons in Hs.
        { subst d. simpl in Hdd. apply andb_true_iff in Hdd as [_ Hr].
          destruct Hh as [->|Hh]; [exact Hr|congruence]. }
        injection Hs as -> _. simpl in Hl. rewrite Ha in Hl. discriminate.
    + split; [intros [=]|].
      intros ([|c l] & d & Hs & _ & Hl & Hdd & _); rewrite ?str_app_nil, ?str_app_cons in Hs.
      * subst d. simpl in Hdd. rewrite Hd in Hdd. discriminate.
      * injection Hs as -> _. simpl in Hl. rewrite Ha in Hl. discriminate.
Qed.

(** C2: [isCourseIdValid] holds of exactly the tokens made of one or more
    letters followed by one or more digits; so it fails on the empty
    token, on any other character, on a letter after a digit, and on
    tokens of letters only or of digits only. *)
Theorem isCourseIdValid_correct (token : string) :
  isCourseIdValid token = true <-> id_shape token.
Proof.
  unfold id_shape. destruct token as [|a s].
  - simpl. split; [intros [=]|].
    intros (l & d & Hs & Hl & _). symmetry in Hs.
    apply string_app_nil_inv in Hs as [? _]. contradiction.
  - unfold isCourseIdValid. rewrite courseId_loop_shape. split.
    + intros (l & d & Hs & Hd & Hl & Hdd & [?|Hne]); [discriminate|].
      exists l, d. auto.
    + intros (l & d & Hs & Hl & Hd & Hla & Hdd). exists l, d. repeat split; auto.
Qed.

(* ------------------------------------------------------------------ *)
(** ** The sorted-set model of std::set<std::string> *)

Lemma strlt_trans (a b c : string) : strlt a b -> strlt b c -> strlt a c.
Proof.
  unfold strlt. intros Hab Hbc.
  apply OrderedTypeEx.String_as_OT.cmp_lt in Hab, Hbc.
  apply OrderedTypeEx.String_as_OT.cmp_lt.
  eapply OrderedTypeEx.String_as_OT.lt_trans; eassumption.
Qed.

Lemma compare_refl_str (a : string) : String.compare a a = Eq.
Proof. apply (OrderedTypeEx.String_as_OT.cmp_eq a a). reflexivity. Qed.

Lemma strlt_irrefl (a : string) : ~ strlt a a.
Proof. unfold strlt. rewrite compare_refl_str. discriminate. Qed.

Lemma strlt_neq (a b : string) : strlt a b -> a <> b.
Proof. intros H ->. exact (strlt_irrefl _ H). Qed.

Lemma compare_gt_strlt (a b : string) : String.compare a b = Gt -> strlt b a.
Proof. unfold strlt. intros H. rewrite String.compare_antisym, H. reflexivity. Qed.

Lemma sorted_not_in (x y : string) (ys : list string) :
  StronglySorted strlt (y :: ys) -> strlt x y -> ~ In x (y :: ys).
Proof.
  intros Hs Hxy [->|Hin]; [exact (strlt_irrefl _ Hxy)|].
  apply StronglySorted_inv in Hs as [_ Hall].
  rewrite List.Forall_forall in Hall. specialize (Hall x Hin).
  exact (strlt_irrefl _ (strlt_trans _ _ _ Hxy Hall)).
Qed.

Lemma strset_insert_spec (x : string) (s : list string) :
  StronglySorted strlt s ->
  StronglySorted strlt (strset_insert x s).1 /\
  (forall y, In y (strset_insert x s).1 <-> y = x \/ In y s) /\
  ((strset_insert x s).2 = true <-> ~ In x s).
Proof.
  induction s as [|y ys IH]; intros Hs.
  - simpl. split; [repeat constructor|]. split; [intuition|]. intuition.
  - simpl. destruct (String.compare x y) eqn:Hc.
    + apply OrderedTypeEx.String_as_OT.cmp_eq in Hc. subst y. simpl.
      split; [exact Hs|]. split; [intuition congruence|].
      split; [discriminate|]. intros H. exfalso. apply H. left. reflexivity.
    + simpl. split.
      * constructor; [exact Hs|]. constructor; [exact Hc|].
        apply StronglySorted_inv in Hs as [_ Hall].
        eapply Forall_impl; [exact Hall|]. intros z Hz. exact (strlt_trans _ _ _ Hc Hz).
      * split; [intuition|]. split; [intros _; exact (sorted_not_in _ _ _ Hs Hc)|auto].
    + apply compare_gt_strlt in Hc.
      pose proof Hs as Hs'. apply StronglySorted_inv in Hs' as [Hys Hall].
      destruct (IH Hys) as (Hsort & Hmem & Hb).
      destruct (strset_insert x ys) as [ys' b]. simpl in *.
      split; [|split].
      * constructor; [exact Hsort|]. apply List.Forall_forall. intros z Hz.
        apply Hmem in Hz as [->|Hz]; [exact Hc|].
        rewrite List.Forall_forall in Hall. exact (Hall z Hz).
      * intros z. rewrite Hmem. intuition.
      * rewrite Hb. pose proof (strlt_neq _ _ Hc). intuition congruence.
Qed.

(* ------------------------------------------------------------------ *)
(** ** The prerequisite loop *)

Lemma existsb_eqb_In (x : string) (l : list string) :
  existsb (String.eqb x) l = true <-> In x l.
Proof.
  rewrite existsb_exists. split.
  - intros (y & Hy & Heq). apply String.eqb_eq in Heq. subst y. exact Hy.
  - intros Hin. exists x. split; [exact Hin|apply String.eqb_refl].
Qed.

Lemma prereq_fold_field (owner : string) (a : ascii) (s : string) (rest : list string)
    (seen prereqs warns : list string) :
  fold_left (prereq_step owner) (String a s :: rest) (seen, prereqs, warns) =
  fold_left (prereq_step owner) rest
    (if negb (isCourseIdValid (toUpper (String a s))) then
       (seen, prereqs,
        app warns ["Skipping invalid prerequisite '" ++ String a s ++ "' for course " ++ owner ++ "."])
     else
       let '(seen', inserted) := strset_insert (toUpper (String a s)) seen in
       if negb inserted then
         (seen', prereqs,
          app warns ["Duplicate prerequisite '" ++ toUpper (String a s) ++
                     "' ignored for course " ++ owner ++ "."])
       else (seen', app prereqs [toUpper (String a s)], warns)).
Proof. reflexivity. Qed.

Lemma spec_prereqs_field (owner : string) (accepted : list string) (a : ascii) (s : string)
    (rest : list string) :
  spec_prereqs owner accepted (String a s :: rest) =
  if negb (isCourseIdValid (toUpper (String a s))) then
    let '(ps, ws) := spec_prereqs owner accepted rest in
    (ps, ("Skipping invalid prerequisite '" ++ String a s ++ "' for course " ++ owner ++ ".") :: ws)
  else if existsb (String.eqb (toUpper (String a s))) accepted then
    let '(ps, ws) := spec_prereqs owner accepted rest in
    (ps, ("Duplicate prerequisite '" ++ toUpper (String a s) ++
          "' ignored for course " ++ owner ++ ".") :: ws)
  else
    let '(ps, ws) := spec_prereqs owner (app accepted [toUpper (String a s)]) rest in
    (toUpper (String a s) :: ps, ws).
Proof. reflexivity. Qed.

Lemma prereq_loop_refines (owner : string) (fields : list string) :
  forall (seen prereqs warns : list string),
  StronglySorted strlt seen -> (forall y, In y seen <-> In y prereqs) ->
  exists seen',
    fold_left (prereq_step owner) fields (seen, prereqs, warns) =
    (seen', app prereqs (spec_prereqs owner prereqs fields).1,
            app warns (spec_prereqs owner prereqs fields).2).
Proof.
  induction fields as [|field rest IH]; intros seen prereqs warns Hsort Hmem.
  - exists seen. simpl. rewrite !app_nil_r. reflexivity.
  - destruct field as [|a s].
    + exact (IH seen prereqs warns Hsort Hmem).
    + rewrite prereq_fold_field, spec_prereqs_field.
      generalize (String a s) as col. intros col.
      set (up := toUpper col).
      destruct (isCourseIdValid up) eqn:Hv; cbn [negb].
      * destruct (strset_insert_spec up seen Hsort) as (Hs' & Hm' & Hb').
        destruct (strset_insert up seen) as [seen'' b]. simpl in Hs', Hm', Hb'.
        destruct (existsb (String.eqb up) prereqs) eqn:Hex.
        -- apply existsb_eqb_In in Hex.
           assert (b = false) as ->.
           { destruct b; [|reflexivity]. exfalso. apply (proj1 Hb' eq_refl). apply Hmem. exact Hex. }
           cbn [negb].
           destruct (IH seen'' prereqs
                      (app warns ["Duplicate prerequisite '" ++ up ++
                                  "' ignored for course " ++ owner ++ "."])) as [seen3 Hf].
           { exact Hs'. }
           { intros y. rewrite Hm', Hmem. split; [intros [->|H]; auto|auto]. }
           exists seen3. rewrite Hf.
           destruct (spec_prereqs owner prereqs rest) as [ps ws]. simpl.
           rewrite <- app_assoc. reflexivity.
        -- assert (b = true) as ->.
           { apply Hb'. intros Hin. apply Hmem in Hin. apply existsb_eqb_In in Hin. congruence. }
           cbn [negb].
           destruct (IH seen'' (app prereqs [up]) warns) as [seen3 Hf].
           { exact Hs'. }
           { intros y. rewrite Hm', in_app_iff, Hmem. simpl. intuition. }
           exists seen3. rewrite Hf.
           destruct (spec_prereqs owner (app prereqs [up]) rest) as [ps ws].
           simpl. rewrite <- app_assoc. reflexivity.
      * destruct (IH seen prereqs
                   (app warns ["Skipping invalid prerequisite '" ++ col ++
                               "' for course " ++ owner ++ "."])) as [seen3 Hf]; [assumption..|].
        exists seen3. rewrite Hf.
        destruct (spec_prereqs owner prereqs rest) as [ps ws]. simpl.
        rewrite <- app_assoc. reflexivity.
Qed.

Lemma process_prereqs_refines (owner : string) (fields : list string) :
  process_prereqs owner fields = spec_prereqs owner [] fields.
Proof.
  unfold process_prereqs.
  destruct (prereq_loop_refines owner fields [] [] []) as [seen' ->];
    [constructor|reflexivity|].
  destruct (spec_prereqs owner [] fields). reflexivity.
Qed.

Lemma spec_prereqs_props (owner : string) (fields : list string) :
  forall accepted : list string,
  let ps := (spec_prereqs owner accepted fields).1 in
  NoDup ps /\ Forall (fun p => isCourseIdValid p = true) ps /\
  sublist ps (map toUpper fields) /\ (forall p, In p ps -> ~ In p accepted).
Proof.
  induction fields as [|field rest IH]; intros accepted.
  - simpl. split; [constructor|]. split; [constructor|]. split; [constructor|]. intros _ [].
  - destruct field as [|a s].
    + destruct (IH accepted) as (Hnd & Hv & Hsub & Hacc).
      split; [exact Hnd|]. split; [exact Hv|]. split; [|exact Hacc].
      simpl. apply sublist_cons. exact Hsub.
    + cbv zeta. rewrite spec_prereqs_field. cbn [map].
      generalize (String a s) as col. intros col.
      set (up := toUpper col).
      destruct (isCourseIdValid up) eqn:Hvalid; cbn [negb].
      * destruct (existsb (String.eqb up) accepted) eqn:Hex.
        -- destruct (IH accepted) as (Hnd & Hv & Hsub & Hacc).
           destruct (spec_prereqs owner accepted rest) as [ps ws]. simpl in *.
           split; [exact Hnd|]. split; [exact Hv|]. split; [|exact Hacc].
           apply sublist_cons. exact Hsub.
        -- destruct (IH (app accepted [up])) as (Hnd & Hv & Hsub & Hacc).
           destruct (spec_prereqs owner (app accepted [up]) rest) as [ps ws]. simpl in *.
           split; [|split; [|split]].
           ++ constructor; [|exact Hnd].
              intros Hin%list_elem_of_In. apply (Hacc up Hin). apply in_app_iff. right. left. reflexivity.
           ++ constructor; [exact Hvalid|exact Hv].
           ++ apply sublist_skip. exact Hsub.
           ++ intros p [<-|Hp] Hin.
              ** apply existsb_eqb_In in Hin. congruence.
              ** apply (Hacc p Hp). apply in_app_iff. left. exact Hin.
      * destruct (IH accepted) as (Hnd & Hv & Hsub & Hacc).
        destruct (spec_prereqs owner accepted rest) as [ps ws]. simpl in *.
        split; [exact Hnd|]. split; [exact Hv|]. split; [|exact Hacc].
        apply sublist_cons. exact Hsub.
Qed.

(* ------------------------------------------------------------------ *)
(** ** One line *)

Lemma parse_line_some (n : nat) (raw : string) (c : Course) (ws : list string) :
  parse_line n raw = (Some c, ws) ->
  let columns := map trim (getlines "," (trim raw)) in
  (2 <= length columns)%nat /\
  courseNumber c = toUpper (nth 0 columns "") /\
  courseName c = nth 1 columns "" /\
  isCourseIdValid (courseNumber c) = true /\
  process_prereqs (courseNumber c) (drop 2 columns) = (prerequisites c, ws).
Proof.
  unfold parse_line. cbv zeta.
  destruct (trim raw) as [|a s]; [intros [=]|].
  set (columns := map trim (getlines "," (String a s))).
  destruct (length columns <? 2)%nat eqn:Hlen; [intros [=]|].
  apply Nat.ltb_ge in Hlen.
  destruct (isCourseIdValid (toUpper (nth 0 columns ""))) eqn:Hv; cbn [negb]; [|intros [=]].
  destruct (process_prereqs (toUpper (nth 0 columns "")) (drop 2 columns)) as [ps ws'] eqn:Hp.
  intros [= <- <-]. simpl. auto.
Qed.

(** C5: for a line that yields a course, its prerequisites and the
    warnings the line gives are those of [spec_prereqs] on the fields
    from the third onward: an empty field is skipped silently, an
    invalid one (after uppercasing) is dropped with a warning naming the
    course, a repeat of an accepted one is dropped with a warning naming
    it and the course, and the first occurrence of each is kept in field
    order; so the prerequisites are valid, distinct, and a subsequence of
    the uppercased fields. *)
Theorem parse_line_prerequisites (n : nat) (raw : string) (c : Course) (ws : list string) :
  parse_line n raw = (Some c, ws) ->
  let fields := drop 2 (map trim (getlines "," (trim raw))) in
  (prerequisites c, ws) = spec_prereqs (courseNumber c) [] fields /\
  NoDup (prerequisites c) /\
  Forall (fun p => isCourseIdValid p = true) (prerequisites c) /\
  sublist (prerequisites c) (map toUpper fields).
Proof.
  intros Hp. destruct (parse_line_some n raw c ws Hp) as (_ & _ & _ & _ & Hproc).
  cbv zeta. rewrite process_prereqs_refines in Hproc.
  destruct (spec_prereqs_props (courseNumber c) (drop 2 (map trim (getlines "," (trim raw)))) [])
    as (Hnd & Hv & Hsub & _).
  rewrite Hproc in Hnd, Hv, Hsub |- *. simpl in *. auto.
Qed.

Lemma parse_line_prerequisites_witness :
  parse_line 1 sample_line = (Some sample_course, sample_warnings) /\
  (prerequisites sample_course, sample_warnings)
  = spec_prereqs (courseNumber sample_course) [] (drop 2 (map trim (getlines "," (trim sample_line)))).
Proof.
  split; [vm_compute; reflexivity|].
  apply (parse_line_prerequisites 1 sample_line sample_course sample_warnings).
  vm_compute. reflexivity.
Defined.

(* ------------------------------------------------------------------ *)
(** ** The sorted identifier list *)

Lemma le_neq_strlt (a b : string) : String.le a b -> a <> b -> strlt a b.
Proof.
  unfold String.le, String.leb, strlt. intros Hle Hne.
  destruct (String.compare a b) eqn:Hc; try reflexivity.
  - apply OrderedTypeEx.String_as_OT.cmp_eq in Hc. contradiction.
  - destruct Hle.
Qed.

Lemma strongly_sorted_le_strlt (l : list string) :
  StronglySorted String.le l -> NoDup l -> StronglySorted strlt l.
Proof.
  induction l as [|x l IH]; intros Hs Hnd; [constructor|].
  apply StronglySorted_inv in Hs as [Hs Hall].
  apply NoDup_cons in Hnd as [Hx Hnd].
  constructor; [exact (IH Hs Hnd)|].
  apply List.Forall_forall. intros y Hy. apply le_neq_strlt.
  - rewrite List.Forall_forall in Hall. exact (Hall y Hy).
  - intros ->. apply Hx. apply list_elem_of_In. exact Hy.
Qed.

Lemma in_keys (dir : gmap string Course) (k : string) :
  In k (map fst (map_to_list dir)) <-> is_Some (dir !! k).
Proof.
  rewrite in_map_iff. split.
  - intros ([k' c] & <- & Hin). exists c. apply elem_of_map_to_list.
    apply list_elem_of_In. exact Hin.
  - intros [c Hc]. exists (k, c). split; [reflexivity|].
    apply list_elem_of_In. apply elem_of_map_to_list. exact Hc.
Qed.

Lemma fmap_is_map {A B : Type} (f : A -> B) (l : list A) : f <$> l = map f l.
Proof. induction l as [|x l IH]; simpl; [reflexivity|]. rewrite <- IH. reflexivity. Qed.

Lemma sorted_ids_spec (dir : gmap string Course) :
  StronglySorted strlt (sorted_ids dir) /\ NoDup (sorted_ids dir) /\
  (forall k, In k (sorted_ids dir) <-> is_Some (dir !! k)).
Proof.
  unfold sorted_ids.
  pose proof (merge_sort_Permutation String.le (map fst (map_to_list dir))) as Hperm.
  assert (NoDup (merge_sort String.le (map fst (map_to_list dir)))) as Hnd.
  { rewrite Hperm, <- fmap_is_map. apply NoDup_fst_map_to_list. }
  split; [|split; [exact Hnd|]].
  - apply strongly_sorted_le_strlt; [|exact Hnd].
    apply (StronglySorted_merge_sort String.le); apply _.
  - intros k. rewrite <- in_keys. split; apply Permutation_in; [|symmetry]; exact Hperm.
Qed.

(* ------------------------------------------------------------------ *)
(** ** The state after a load *)

Lemma load_ok_true (fs : FileSystem) (self : Catalog) (fileName : string) :
  ok (load fs self fileName).1 = true ->
  exists resolved contents,
    resolveCourseFilePath fs fileName = Some resolved /\
    fs_open fs resolved = Some contents /\
    let st := parse_lines (getlines "010" contents) in
    loadedCourseDirectory st <> ∅ /\
    load fs self fileName =
      ({| ok := true; courses := size (loadedCourseDirectory st); warnings := load_warnings st;
          missingPrerequisites := missing_set (loadedCourseDirectory st); path := resolved |},
       {| courseDirectory := loadedCourseDirectory st;
          sortedCourseIds := sorted_ids (loadedCourseDirectory st) |}).
Proof.
  destruct (decide (fileName = "")) as [->|Hne]; [discriminate|].
  rewrite load_nonempty by exact Hne.
  destruct (resolveCourseFilePath fs fileName) as [resolved|] eqn:Hres; [|discriminate].
  destruct (fs_open fs resolved) as [contents|] eqn:Hopen; [|discriminate].
  unfold load_contents. case_bool_decide as Hemp; [discriminate|].
  intros _. exists resolved, contents. cbv zeta. repeat split; auto.
Qed.

Lemma load_state_cases (fs : FileSystem) (self : Catalog) (fileName : string) :
  (load fs self fileName).2 = self \/
  exists loaded : gmap string Course,
    (load fs self fileName).2 =
      {| courseDirectory := loaded; sortedCourseIds := sorted_ids loaded |}.
Proof.
  destruct (ok (load fs self fileName).1) eqn:Hok.
  - right. destruct (load_ok_true fs self fileName Hok) as (r & c & _ & _ & _ & ->).
    eexists. reflexivity.
  - left. exact (proj2 (proj2 (load_result_indep fs self self fileName)) Hok).
Qed.

(** C7: after any sequence of loads on a fresh catalog, [ids] is the key
    set of the directory in strictly increasing byte order, so sorted and
    free of duplicates. [get] and [ids] are functions of the catalog: they
    return a value and no new catalog and no warnings. *)
Theorem ids_sorted_key_set (calls : list (FileSystem * string)) :
  let self := run_loads calls in
  StronglySorted strlt (ids self) /\ NoDup (ids self) /\
  (forall k, In k (ids self) <-> is_Some (get self k)).
Proof.
  unfold run_loads. cbv zeta.
  assert (forall self : Catalog,
            StronglySorted strlt (ids self) /\ NoDup (ids self) /\
            (forall k, In k (ids self) <-> is_Some (get self k)) ->
            let self' := fold_left (fun self (call : FileSystem * string) =>
                                      (load call.1 self call.2).2) calls self in
            StronglySorted strlt (ids self') /\ NoDup (ids self') /\
            (forall k, In k (ids self') <-> is_Some (get self' k))) as Hgen.
  { induction calls as [|[fs fileName] calls IH]; intros self Hinv; [exact Hinv|].
    simpl. apply IH.
    destruct (load_state_cases fs self fileName) as [->|[loaded ->]]; [exact Hinv|].
    exact (sorted_ids_spec loaded). }
  apply Hgen. unfold ids, get. simpl. split; [constructor|]. split; [constructor|].
  intros k. rewrite lookup_empty. split; [intros []|intros [? [=]]].
Qed.

(* ------------------------------------------------------------------ *)
(** ** The dangling-prerequisite set *)

Lemma strongly_sorted_NoDup (l : list string) : StronglySorted strlt l -> NoDup l.
Proof.
  induction l as [|x l IH]; intros Hs; [constructor|].
  apply StronglySorted_inv in Hs as [Hs Hall]. constructor; [|exact (IH Hs)].
  intros Hin%list_elem_of_In. rewrite List.Forall_forall in Hall.
  exact (strlt_irrefl _ (Hall x Hin)).
Qed.

Lemma missing_inner (dir : gmap string Course) (owner : string) (ps : list string) :
  forall ms : list string,
  StronglySorted strlt ms ->
  StronglySorted strlt (fold_left (missing_step dir owner) ps ms) /\
  (forall x, In x (fold_left (missing_step dir owner) ps ms) <->
             In x ms \/ exists p, In p ps /\ dir !! p = None /\ x = reference_description p owner).
Proof.
  induction ps as [|p ps IH]; intros ms Hs.
  - simpl. split; [exact Hs|]. intros x. split; [auto|]. intros [H|(p & [] & _)]. exact H.
  - simpl.
    change (missing_step dir owner ms p) with
      (match dir !! p with
       | None => fst (strset_insert (p ++ " (referenced by " ++ owner ++ ")") ms)
       | Some _ => ms
       end).
    destruct (dir !! p) as [c|] eqn:Hp.
    + destruct (IH ms Hs) as [Hs' Hm]. split; [exact Hs'|].
      intros x. rewrite Hm. split.
      * intros [H|(q & Hq & Hnone & ->)]; [auto|]. right. exists q. auto.
      * intros [H|(q & [<-|Hq] & Hnone & ->)]; [auto|congruence|].
        right. exists q. auto.
    + destruct (strset_insert_spec (p ++ " (referenced by " ++ owner ++ ")") ms Hs)
        as (Hs1 & Hm1 & _).
      destruct (IH _ Hs1) as [Hs' Hm]. split; [exact Hs'|].
      intros x. rewrite Hm, Hm1. split.
      * intros [[->|H]|(q & Hq & Hnone & ->)]; [|auto|].
        -- right. exists p. auto.
        -- right. exists q. auto.
      * intros [H|(q & [<-|Hq] & Hnone & ->)]; [auto|auto|].
        right. exists q. auto.
Qed.

Lemma missing_outer (dir : gmap string Course) (L : list (string * Course)) :
  forall ms : list string,
  StronglySorted strlt ms ->
  let res := fold_left (fun ms (e : string * Course) =>
                          fold_left (missing_step dir e.1) (prerequisites e.2) ms) L ms in
  StronglySorted strlt res /\
  (forall x, In x res <->
             In x ms \/ exists owner c p, In (owner, c) L /\ In p (prerequisites c) /\
                                         dir !! p = None /\ x = reference_description p owner).
Proof.
  induction L as [|[owner c] L IH]; intros ms Hs.
  - simpl. split; [exact Hs|]. intros x. split; [auto|].
    intros [H|(o & c & p & [] & _)]. exact H.
  - simpl. destruct (missing_inner dir owner (prerequisites c) ms Hs) as [Hs1 Hm1].
    destruct (IH _ Hs1) as [Hs' Hm]. split; [exact Hs'|].
    intros x. rewrite Hm, Hm1. split.
    + intros [[H|(p & Hp & Hn & ->)]|(o & c' & p & HL & Hp & Hn & ->)]; [auto| |].
      * right. exists owner, c, p. auto.
      * right. exists o, c', p. auto.
    + intros [H|(o & c' & p & [Heq|HL] & Hp & Hn & ->)]; [auto| |].
      * injection Heq as <- <-. left. right. exists p. auto.
      * right. exists o, c', p. auto.
Qed.

Lemma missing_set_spec (dir : gmap string Course) :
  StronglySorted strlt (missing_set dir) /\
  (forall x, In x (missing_set dir) <->
             exists owner c p, dir !! owner = Some c /\ In p (prerequisites c) /\
                               dir !! p = None /\ x = reference_description p owner).
Proof.
  unfold missing_set.
  destruct (missing_outer dir (map_to_list dir) [] ltac:(constructor)) as [Hs Hm].
  split; [exact Hs|]. intros x. rewrite Hm. split.
  - intros [[]|(o & c & p & HL & Hp & Hn & ->)]. exists o, c, p.
    split; [|auto]. apply elem_of_map_to_list. apply list_elem_of_In. exact HL.
  - intros (o & c & p & Ho & Hp & Hn & ->). right. exists o, c, p.
    split; [|auto]. apply list_elem_of_In. apply elem_of_map_to_list. exact Ho.
Qed.

(* ------------------------------------------------------------------ *)
(** ** The directory built from the lines *)

Lemma all_chars_impl (p q : ascii -> bool) (s : string) :
  (forall c, p c = true -> q c = true) -> all_chars p s = true -> all_chars q s = true.
Proof.
  intros Hpq. induction s as [|c s IH]; simpl; [reflexivity|].
  intros [Hc Hs]%andb_true_iff. rewrite (Hpq c Hc), (IH Hs). reflexivity.
Qed.

Lemma courseId_loop_chars (s : string) (hasLetter hasDigit : bool) :
  courseId_loop s hasLetter hasDigit = true ->
  all_chars (fun c => isalpha c || isdigit c) s = true.
Proof.
  revert hasLetter hasDigit. induction s as [|c s IH]; intros hl hd; simpl; [reflexivity|].
  destruct (isalpha c) eqn:Ha; simpl.
  - destruct hd; [discriminate|]. apply IH.
  - destruct (isdigit c); [apply IH|discriminate].
Qed.

Lemma valid_no_space (s : string) : isCourseIdValid s = true -> all_chars no_space s = true.
Proof.
  destruct s as [|a s]; [discriminate|]. unfold isCourseIdValid.
  intros H. apply courseId_loop_chars in H. revert H. apply all_chars_impl.
  intros c Hc. unfold no_space. destruct (Ascii.eqb_spec c " ") as [->|]; [|reflexivity].
  discriminate Hc.
Qed.

Lemma prefix_before_space (p p' r r' : string) :
  all_chars no_space p = true -> all_chars no_space p' = true ->
  p ++ String " " r = p' ++ String " " r' -> p = p'.
Proof.
  revert p'. induction p as [|c p IH]; intros [|c' p'] Hp Hp' Heq;
    rewrite ?str_app_nil, ?str_app_cons in Heq; [reflexivity| | |].
  - injection Heq as <- _. discriminate Hp'.
  - injection Heq as -> _. discriminate Hp.
  - injection Heq as <- Heq. simpl in Hp, Hp'.
    apply andb_true_iff in Hp as [_ Hp]. apply andb_true_iff in Hp' as [_ Hp'].
    f_equal. exact (IH p' Hp Hp' Heq).
Qed.

Lemma reference_description_inj (p p' owner owner' : string) :
  isCourseIdValid p = true -> isCourseIdValid p' = true ->
  reference_description p owner = reference_description p' owner' -> p = p'.
Proof.
  intros Hp Hp'. apply prefix_before_space; apply valid_no_space; assumption.
Qed.

Lemma parse_line_wf (n : nat) (raw : string) (c : Course) (ws : list string) :
  parse_line n raw = (Some c, ws) ->
  isCourseIdValid (courseNumber c) = true /\
  Forall (fun p => isCourseIdValid p = true) (prerequisites c).
Proof.
  intros Hp. destruct (parse_line_some n raw c ws Hp) as (_ & _ & _ & Hv & Hproc).
  split; [exact Hv|]. rewrite process_prereqs_refines in Hproc.
  destruct (spec_prereqs_props (courseNumber c) (drop 2 (map trim (getlines "," (trim raw)))) [])
    as (_ & Hall & _).
  rewrite Hproc in Hall. exact Hall.
Qed.

Lemma load_lines_wf (lines : list string) :
  forall st : ParseState, directory_wf (loadedCourseDirectory st) ->
  directory_wf (loadedCourseDirectory (fold_left load_line lines st)).
Proof.
  induction lines as [|raw lines IH]; intros st Hwf; [exact Hwf|].
  simpl. apply IH. unfold load_line.
  destruct (parse_line (S (lineNumber st)) raw) as [[c|] ws] eqn:Hp; simpl; [|exact Hwf].
  destruct (parse_line_wf _ _ _ _ Hp) as [Hv Hall].
  intros k c' Hk. apply lookup_insert_Some in Hk as [[<- <-]|[_ Hk]].
  - auto.
  - exact (Hwf k c' Hk).
Qed.

Lemma parse_lines_wf (lines : list string) : directory_wf (loadedCourseDirectory (parse_lines lines)).
Proof.
  apply load_lines_wf. intros k c Hk. simpl in Hk. rewrite lookup_empty in Hk. discriminate.
Qed.

(** C4: on a successful load, [missingPrerequisites] holds exactly the
    descriptions "<p> (referenced by <owner>)" of the pairs where the
    course [owner] of the new directory lists [p] and [p] is not in the
    directory; the list is strictly increasing (so sorted and free of
    duplicates); no prerequisite that is a key of the directory is ever
    reported, whichever line defined it; and whether a load of opened
    contents succeeds depends only on the directory being non-empty. *)
Theorem load_missing_prerequisites (fs : FileSystem) (self : Catalog) (fileName : string) :
  ok (load fs self fileName).1 = true ->
  let r := (load fs self fileName).1 in
  let dir := courseDirectory (load fs self fileName).2 in
  (forall x, In x (missingPrerequisites r) <->
     exists owner c p, dir !! owner = Some c /\ In p (prerequisites c) /\
                       dir !! p = None /\ x = reference_description p owner) /\
  StronglySorted strlt (missingPrerequisites r) /\
  NoDup (missingPrerequisites r) /\
  (forall p owner, is_Some (dir !! p) -> ~ In (reference_description p owner) (missingPrerequisites r)) /\
  (forall self' resolved contents,
     ok (load_contents self' resolved contents).1 = true <->
     loadedCourseDirectory (parse_lines (getlines "010" contents)) <> ∅).
Proof.
  intros Hok. destruct (load_ok_true fs self fileName Hok)
    as (resolved & contents & _ & _ & _ & Heq).
  cbv zeta. rewrite Heq. simpl.
  set (dir := loadedCourseDirectory (parse_lines (getlines "010" contents))).
  destruct (missing_set_spec dir) as [Hs Hm].
  split; [exact Hm|]. split; [exact Hs|]. split; [exact (strongly_sorted_NoDup _ Hs)|]. split.
  - intros p owner [cp Hcp] Hin. apply Hm in Hin as (o & c & p' & Ho & Hp' & Hn & Heq').
    pose proof (parse_lines_wf (getlines "010" contents)) as Hwf. fold dir in Hwf.
    destruct (Hwf p cp Hcp) as (_ & Hvp & _).
    destruct (Hwf o c Ho) as (_ & _ & Hall). rewrite List.Forall_forall in Hall.
    assert (p = p') as <-.
    { exact (reference_description_inj _ _ _ _ Hvp (Hall p' Hp') Heq'). }
    congruence.
  - intros self' resolved' contents'. unfold load_contents.
    case_bool_decide as Hemp; simpl.
    + split; [discriminate|]. intros H. exfalso. exact (H Hemp).
    + split; [intros _; exact Hemp|reflexivity].
Qed.

Lemma load_missing_prerequisites_witness :
  ok (load dangling_fs initial_catalog "/c.csv").1 = true /\
  missingPrerequisites (load dangling_fs initial_catalog "/c.csv").1
    = ["MATH999 (referenced by CSCI200)"] /\
  StronglySorted strlt (missingPrerequisites (load dangling_fs initial_catalog "/c.csv").1).
Proof.
  split; [vm_compute; reflexivity|]. split; [vm_compute; reflexivity|].
  apply (load_missing_prerequisites dangling_fs initial_catalog "/c.csv").
  vm_compute. reflexivity.
Defined.

(* ------------------------------------------------------------------ *)
(** ** Lines that define the same course *)

Lemma app_dot_inj (k k' : string) : k ++ "." = k' ++ "." -> k = k'.
Proof.
  revert k'. induction k as [|c k IH]; intros [|c' k'] H;
    rewrite ?str_app_nil, ?str_app_cons in H; [reflexivity| | |].
  - injection H as _ H. symmetry in H. apply string_app_nil_inv in H as [_ [=]].
  - injection H as _ H. apply string_app_nil_inv in H as [_ [=]].
  - injection H as <- H. f_equal. exact (IH k' H).
Qed.

Lemma replace_warning_inj (k k' : string) : replace_warning k = replace_warning k' -> k = k'.
Proof.
  unfold replace_warning. intros H. apply app_dot_inj.
  apply (inj (String.app "Replacing existing course entry for ")) in H. exact H.
Qed.

Lemma count_replace_app (k : string) (a b : list string) :
  count_replace k (app a b) = (count_replace k a + count_replace k b)%nat.
Proof. unfold count_replace. rewrite List.filter_app, List.length_app. reflexivity. Qed.

Lemma count_replace_none (k : string) (ws : list string) :
  (forall w, In w ws -> w <> replace_warning k) -> count_replace k ws = 0%nat.
Proof.
  unfold count_replace. induction ws as [|w ws IH]; intros Hw; [reflexivity|].
  cbn [List.filter]. destruct (String.eqb_spec (replace_warning k) w) as [Heq|_].
  - exfalso. apply (Hw w); [left; reflexivity|symmetry; exact Heq].
  - apply IH. intros w' Hw'. apply Hw. right. exact Hw'.
Qed.

Lemma count_replace_one (k k' : string) :
  count_replace k [replace_warning k'] = if String.eqb k' k then 1%nat else 0%nat.
Proof.
  unfold count_replace. cbn [List.filter].
  destruct (String.eqb_spec (replace_warning k) (replace_warning k')) as [H|H],
    (String.eqb_spec k' k) as [->|Hne]; try reflexivity.
  - apply replace_warning_inj in H. congruence.
  - congruence.
Qed.

Lemma spec_prereqs_no_replace (owner : string) (fields : list string) :
  forall (accepted : list string) (w k : string),
  In w (spec_prereqs owner accepted fields).2 -> w <> replace_warning k.
Proof.
  induction fields as [|field rest IH]; intros accepted w k Hw; [destruct Hw|].
  destruct field as [|a s]; [exact (IH accepted w k Hw)|].
  rewrite spec_prereqs_field in Hw. generalize dependent (String a s). intros col.
  set (up := toUpper col).
  destruct (isCourseIdValid up); cbn [negb];
    [destruct (existsb (String.eqb up) accepted)|].
  - specialize (IH accepted w k). destruct (spec_prereqs owner accepted rest) as [ps ws].
    intros [<-|Hw]; [discriminate|exact (IH Hw)].
  - specialize (IH (app accepted [up]) w k).
    destruct (spec_prereqs owner (app accepted [up]) rest) as [ps ws].
    intros Hw. exact (IH Hw).
  - specialize (IH accepted w k). destruct (spec_prereqs owner accepted rest) as [ps ws].
    intros [<-|Hw]; [discriminate|exact (IH Hw)].
Qed.

Lemma parse_line_no_replace (n : nat) (raw : string) (oc : option Course) (ws : list string) :
  parse_line n raw = (oc, ws) -> forall w k, In w ws -> w <> replace_warning k.
Proof.
  unfold parse_line. cbv zeta.
  destruct (trim raw) as [|a s]; [intros [= _ <-] w k []|].
  set (columns := map trim (getlines "," (String a s))).
  destruct (length columns <? 2)%nat; [intros [= _ <-] w k [<-|[]]; discriminate|].
  destruct (isCourseIdValid (toUpper (nth 0 columns ""))); cbn [negb];
    [|intros [= _ <-] w k [<-|[]]; discriminate].
  destruct (process_prereqs (toUpper (nth 0 columns "")) (drop 2 columns)) as [ps ws'] eqn:Hp.
  intros [= _ <-] w k Hw. rewrite process_prereqs_refines in Hp.
  apply (spec_prereqs_no_replace (toUpper (nth 0 columns "")) (drop 2 columns) [] w k).
  rewrite Hp. exact Hw.
Qed.

Lemma load_lines_dir (lines : list string) :
  forall (st : ParseState) (k : string),
  loadedCourseDirectory (fold_left load_line lines st) !! k =
  match last (List.filter (fun c => String.eqb (courseNumber c) k)
                          (parsed_from (lineNumber st) lines)) with
  | Some c => Some c
  | None => loadedCourseDirectory st !! k
  end.
Proof.
  induction lines as [|raw lines IH]; intros st k; [reflexivity|].
  cbn [fold_left parsed_from]. rewrite IH. unfold load_line.
  destruct (parse_line (S (lineNumber st)) raw) as [[c|] ws]; simpl; [|reflexivity].
  destruct (String.eqb_spec (courseNumber c) k) as [<-|Hne].
  - rewrite last_cons. destruct (last _); [reflexivity|]. apply lookup_insert_eq.
  - destruct (last _); [reflexivity|]. apply lookup_insert_ne. exact Hne.
Qed.

Lemma load_lines_warnings (lines : list string) :
  forall (st : ParseState) (k : string),
  exists ws,
    load_warnings (fold_left load_line lines st) = app (load_warnings st) ws /\
    (count_replace k ws + absent (loadedCourseDirectory st) k =
     length (List.filter (fun c => String.eqb (courseNumber c) k)
                         (parsed_from (lineNumber st) lines)) +
     absent (loadedCourseDirectory (fold_left load_line lines st)) k)%nat.
Proof.
  induction lines as [|raw lines IH]; intros st k.
  - exists []. simpl. rewrite app_nil_r. split; reflexivity.
  - cbn [fold_left parsed_from].
    destruct (parse_line (S (lineNumber st)) raw) as [oc ws1] eqn:Hp.
    pose proof (count_replace_none k ws1 (fun w Hw => parse_line_no_replace _ _ _ _ Hp w k Hw))
      as Hc1.
    destruct oc as [c|]; cbn [fst].
    + set (repl := match loadedCourseDirectory st !! courseNumber c with
                   | Some _ => [replace_warning (courseNumber c)]
                   | None => []
                   end).
      assert (load_line st raw =
              {| loadedCourseDirectory := <[courseNumber c := c]> (loadedCourseDirectory st);
                 load_warnings := app (load_warnings st) (app ws1 repl);
                 lineNumber := S (lineNumber st) |}) as ->.
      { unfold load_line. rewrite Hp. reflexivity. }
      destruct (IH {| loadedCourseDirectory := <[courseNumber c := c]> (loadedCourseDirectory st);
                      load_warnings := app (load_warnings st) (app ws1 repl);
                      lineNumber := S (lineNumber st) |} k) as (ws & Hws & Hcount).
      cbn [lineNumber loadedCourseDirectory load_warnings] in Hws, Hcount |- *.
      exists (app ws1 (app repl ws)). split.
      { rewrite Hws, !app_assoc. reflexivity. }
      rewrite !count_replace_app, Hc1.
      unfold absent in Hcount |- *. subst repl.
      destruct (String.eqb_spec (courseNumber c) k) as [<-|Hne].
      * rewrite lookup_insert_eq in Hcount. cbn [length].
        destruct (loadedCourseDirectory st !! courseNumber c);
          cbn [List.filter length]; rewrite ?count_replace_one, ?String.eqb_refl;
          unfold count_replace in *; cbn [List.filter length] in *; lia.
      * rewrite lookup_insert_ne in Hcount by exact Hne.
        destruct (loadedCourseDirectory st !! courseNumber c);
          [rewrite count_replace_one|]; cbn [List.filter length];
          apply String.eqb_neq in Hne; rewrite ?Hne;
          unfold count_replace in *; cbn [List.filter length] in *; lia.
    + assert (load_line st raw =
              {| loadedCourseDirectory := loadedCourseDirectory st;
                 load_warnings := app (load_warnings st) ws1;
                 lineNumber := S (lineNumber st) |}) as ->.
      { unfold load_line. rewrite Hp. reflexivity. }
      destruct (IH {| loadedCourseDirectory := loadedCourseDirectory st;
                      load_warnings := app (load_warnings st) ws1;
                      lineNumber := S (lineNumber st) |} k) as (ws & Hws & Hcount).
      cbn [lineNumber loadedCourseDirectory load_warnings] in Hws, Hcount |- *.
      exists (app ws1 ws). split.
      { rewrite Hws, app_assoc. reflexivity. }
      rewrite count_replace_app, Hc1. exact Hcount.
Qed.

Lemma parse_lines_lookup (lines : list string) (k : string) :
  loadedCourseDirectory (parse_lines lines) !! k =
  last (List.filter (fun c => String.eqb (courseNumber c) k) (parsed_courses lines)).
Proof.
  unfold parse_lines, parsed_courses. rewrite load_lines_dir. simpl.
  destruct (last _); [reflexivity|]. apply lookup_empty.
Qed.

Lemma dom_parse_lines (lines : list string) :
  dom (loadedCourseDirectory (parse_lines lines)) =
  (list_to_set (map courseNumber (parsed_courses lines)) : gset string).
Proof.
  apply set_eq. intros k. rewrite elem_of_dom, elem_of_list_to_set, list_elem_of_In.
  rewrite parse_lines_lookup, in_map_iff.
  destruct (last (List.filter (fun c => String.eqb (courseNumber c) k) (parsed_courses lines)))
    as [c|] eqn:Hl.
  - split; [intros _|intros _; eexists; reflexivity].
    assert (In c (List.filter (fun c => String.eqb (courseNumber c) k) (parsed_courses lines)))
      as Hin.
    { apply last_Some in Hl as [l' ->]. apply in_app_iff. right. left. reflexivity. }
    apply filter_In in Hin as [Hin Heq]. apply String.eqb_eq in Heq.
    exists c. auto.
  - split; [intros [? [=]]|]. intros (c & Heq & Hin).
    apply last_None in Hl. exfalso.
    assert (In c (List.filter (fun c => String.eqb (courseNumber c) k) (parsed_courses lines)))
      as Hin'.
    { apply filter_In. split; [exact Hin|]. apply String.eqb_eq. exact Heq. }
    rewrite Hl in Hin'. exact Hin'.
Qed.

(** C6: when two or more lines of an opened file define the same
    (uppercased) identifier, the load succeeds, [get] returns the course
    of the last of these lines (title and prerequisites as a whole),
    [courses] counts every identifier defined by some line once, and the
    warning "Replacing existing course entry for <ID>." appears once per
    line after the first. *)
Theorem load_duplicate_course_ids (fs : FileSystem) (self : Catalog)
    (fileName resolved contents cid : string) :
  resolveCourseFilePath fs fileName = Some resolved ->
  fs_open fs resolved = Some contents ->
  (2 <= length (List.filter (fun c => String.eqb (courseNumber c) cid)
                            (parsed_courses (getlines "010" contents))))%nat ->
  let recs := parsed_courses (getlines "010" contents) in
  let same := List.filter (fun c => String.eqb (courseNumber c) cid) recs in
  let '(r, self') := load fs self fileName in
  ok r = true /\
  get self' cid = last same /\
  courses r = size (list_to_set (map courseNumber recs) : gset string) /\
  count_replace cid (warnings r) = (length same - 1)%nat.
Proof.
  intros Hres Hopen Hlen. cbv zeta.
  assert (fileName <> "") as Hne by (intros ->; discriminate Hres).
  rewrite load_nonempty, Hres, Hopen by exact Hne. unfold load_contents.
  pose proof (parse_lines_lookup (getlines "010" contents) cid) as Hlook.
  destruct (last (List.filter (fun c => String.eqb (courseNumber c) cid)
                              (parsed_courses (getlines "010" contents)))) as [c0|] eqn:Hlast.
  2:{ apply last_None in Hlast. rewrite Hlast in Hlen. simpl in Hlen. lia. }
  case_bool_decide as Hemp.
  { rewrite Hemp, lookup_empty in Hlook. discriminate. }
  cbn [ok get courseDirectory courses warnings].
  split; [reflexivity|]. split; [exact Hlook|]. split.
  - rewrite <- dom_parse_lines, size_dom. reflexivity.
  - destruct (load_lines_warnings (getlines "010" contents) init_parse cid) as (ws & Hws & Hcount).
    fold (parse_lines (getlines "010" contents)) in Hws, Hcount.
    rewrite Hws. cbn [load_warnings init_parse app lineNumber] in *.
    assert (absent (loadedCourseDirectory (parse_lines (getlines "010" contents))) cid = 0%nat)
      as H0 by (unfold absent; rewrite Hlook; reflexivity).
    assert (absent (loadedCourseDirectory init_parse) cid = 1%nat)
      as H1 by (unfold absent; cbn; rewrite lookup_empty; reflexivity).
    rewrite H0, H1 in Hcount.
    change (parsed_from 0 (getlines "010" contents)) with (parsed_courses (getlines "010" contents)) in Hcount.
    lia.
Qed.

Lemma load_duplicate_course_ids_witness :
  resolveCourseFilePath duplicate_fs "/c.csv" = Some "/c.csv" /\
  get (load duplicate_fs initial_catalog "/c.csv").2 "CSCI200"
    = Some {| courseNumber := "CSCI200"; courseName := "New"; prerequisites := ["CSCI101"] |} /\
  courses (load duplicate_fs initial_catalog "/c.csv").1 = 2%nat.
Proof.
  split; [vm_compute; reflexivity|].
  pose proof (load_duplicate_course_ids duplicate_fs initial_catalog "/c.csv" "/c.csv"
                ("CSCI200,Old,MATH1" ++ nl ++ "MATH1,Calculus" ++ nl ++ "csci200,New,CSCI101" ++ nl)
                "CSCI200" ltac:(vm_compute; reflexivity) ltac:(vm_compute; reflexivity)
                ltac:(vm_compute; lia)) as H.
  vm_compute in H. vm_compute. destruct H as (_ & Hget & Hcount & _).
  split; [exact Hget|exact Hcount].
Defined.

(* ================================================================== *)
(** * Further properties of the loader *)

(** ** Stripping *)

Lemma str_app_nil_r (s : string) : s ++ "" = s.
Proof. induction s as [|c s IH]; [reflexivity|]. rewrite str_app_cons, IH. reflexivity. Qed.

Lemma str_app_assoc (a b c : string) : (a ++ b) ++ c = a ++ (b ++ c).
Proof.
  induction a as [|x a IH]; [rewrite !str_app_nil; reflexivity|].
  rewrite !str_app_cons, IH. reflexivity.
Qed.

Lemma all_chars_app (p : ascii -> bool) (s t : string) :
  all_chars p (s ++ t) = all_chars p s && all_chars p t.
Proof.
  induction s as [|c s IH]; [rewrite str_app_nil; reflexivity|].
  rewrite str_app_cons. simpl. rewrite IH. apply andb_assoc.
Qed.

Lemma lstrip_decomp (p : ascii -> bool) (s : string) :
  exists pre, s = pre ++ lstrip_by p s /\ all_chars p pre = true.
Proof.
  induction s as [|c s IH]; [exists ""; auto|]. simpl.
  destruct (p c) eqn:Hc.
  - destruct IH as (pre & Hs & Hp). exists (String c pre).
    rewrite str_app_cons, <- Hs. simpl. rewrite Hc, Hp. auto.
  - exists "". rewrite str_app_nil. auto.
Qed.

Lemma lstrip_head (p : ascii -> bool) (s : string) (c : ascii) (r : string) :
  lstrip_by p s = String c r -> p c = false.
Proof.
  induction s as [|a s IH]; simpl; [discriminate|].
  destruct (p a) eqn:Ha; [exact IH|]. intros [= <- _]. exact Ha.
Qed.

Lemma rstrip_empty_iff (p : ascii -> bool) (s : string) :
  rstrip_by p s = "" <-> all_chars p s = true.
Proof.
  induction s as [|c s IH]; simpl; [split; auto|].
  destruct (rstrip_by p s) as [|a r] eqn:Hr.
  - assert (all_chars p s = true) as -> by (apply IH; reflexivity).
    rewrite andb_true_r. destruct (p c); split; auto; discriminate.
  - assert (all_chars p s = false) as ->.
    { destruct (all_chars p s); [|reflexivity]. pose proof (proj2 IH eq_refl). discriminate. }
    rewrite andb_false_r. split; discriminate.
Qed.

Lemma rstrip_decomp (p : ascii -> bool) (s : string) :
  exists suf, s = rstrip_by p s ++ suf /\ all_chars p suf = true.
Proof.
  induction s as [|c s IH]; [exists ""; auto|]. simpl.
  destruct IH as (suf & Hs & Hsuf).
  destruct (rstrip_by p s) as [|a r] eqn:Hr.
  - rewrite str_app_nil in Hs. subst suf.
    destruct (p c) eqn:Hc.
    + exists (String c s). rewrite str_app_nil. simpl. rewrite Hc, Hsuf. auto.
    + exists s. rewrite str_app_cons, str_app_nil. auto.
  - exists suf. rewrite str_app_cons, <- Hs. auto.
Qed.

Lemma rstrip_head (p : ascii -> bool) (s : string) (c : ascii) (r : string) :
  rstrip_by p s = String c r -> exists r', s = String c r'.
Proof.
  destruct s as [|a s]; simpl; [discriminate|].
  destruct (rstrip_by p s) as [|b t]; [destruct (p a)|]; intros [= <- _]; eauto.
Qed.

Lemma rstrip_last (p : ascii -> bool) (s t : string) (c : ascii) :
  rstrip_by p s = t ++ String c "" -> p c = false.
Proof.
  revert t. induction s as [|a s IH]; intros t; simpl.
  - destruct t; rewrite ?str_app_nil, ?str_app_cons; discriminate.
  - destruct (rstrip_by p s) as [|b u] eqn:Hr.
    + destruct (p a) eqn:Ha.
      * destruct t; rewrite ?str_app_nil, ?str_app_cons; discriminate.
      * destruct t as [|x t]; rewrite ?str_app_nil, ?str_app_cons.
        -- intros [= <-]. exact Ha.
        -- intros [= _ H]; symmetry in H; apply string_app_nil_inv in H as [_ [=]].
    + destruct t as [|x t]; rewrite ?str_app_nil, ?str_app_cons.
      * intros [= _ H]; discriminate.
      * intros [= _ H]. exact (IH t H).
Qed.

Lemma rstrip_idem (p : ascii -> bool) (s : string) : rstrip_by p (rstrip_by p s) = rstrip_by p s.
Proof.
  induction s as [|c s IH]; [reflexivity|]. simpl.
  destruct (rstrip_by p s) as [|a r] eqn:Hr.
  - destruct (p c) eqn:Hc; simpl; [reflexivity|]. rewrite Hc. reflexivity.
  - change (rstrip_by p (String c (String a r)))
      with (match rstrip_by p (String a r) with
            | EmptyString => if p c then EmptyString else String c EmptyString
            | r' => String c r' end).
    rewrite IH. reflexivity.
Qed.

Lemma lstrip_app (p : ascii -> bool) (s t : string) :
  lstrip_by p (s ++ t) = if all_chars p s then lstrip_by p t else lstrip_by p s ++ t.
Proof.
  induction s as [|c s IH]; [rewrite str_app_nil; reflexivity|].
  rewrite str_app_cons. simpl. destruct (p c); simpl; [exact IH|].
  rewrite str_app_cons. reflexivity.
Qed.

Lemma rstrip_app_strip (p : ascii -> bool) (s : string) (c : ascii) :
  p c = true -> rstrip_by p (s ++ String c "") = rstrip_by p s.
Proof.
  intros Hc. induction s as [|a s IH].
  - rewrite str_app_nil. simpl. rewrite Hc. reflexivity.
  - rewrite str_app_cons. simpl. rewrite IH. reflexivity.
Qed.

(** [find_first_not_of] and [find_last_not_of] find nothing exactly on
    blank strings. *)
Lemma find_first_none (s : string) :
  find_first_not_of s = None <-> all_chars is_trim_char s = true.
Proof.
  induction s as [|c s IH]; simpl; [split; auto|].
  destruct (is_trim_char c); simpl; [|split; discriminate].
  rewrite <- IH. destruct (find_first_not_of s); simpl; split; congruence.
Qed.

Lemma find_last_none (s : string) :
  find_last_not_of s = None <-> all_chars is_trim_char s = true.
Proof.
  induction s as [|c s IH]; simpl; [split; auto|].
  destruct (find_last_not_of s) as [i|] eqn:Hl.
  - assert (all_chars is_trim_char s = false) as ->.
    { destruct (all_chars is_trim_char s); [|reflexivity]. pose proof (proj2 IH eq_refl). discriminate. }
    rewrite andb_false_r. split; discriminate.
  - assert (all_chars is_trim_char s = true) as -> by (apply IH; reflexivity).
    rewrite andb_true_r. destruct (is_trim_char c); split; auto; discriminate.
Qed.

Lemma rstrip_substring (s : string) (l : nat) :
  find_last_not_of s = Some l -> rstrip_by is_trim_char s = substring 0 (S l) s.
Proof.
  revert l. induction s as [|c s IH]; intros l; simpl; [discriminate|].
  destruct (find_last_not_of s) as [i|] eqn:Hl.
  - intros [= <-]. rewrite (IH i eq_refl).
    destruct s as [|a s']; [discriminate|]. reflexivity.
  - assert (rstrip_by is_trim_char s = "") as ->.
    { apply rstrip_empty_iff, find_last_none. exact Hl. }
    destruct (is_trim_char c); [discriminate|]. intros [= <-].
    simpl. destruct s; reflexivity.
Qed.

(** [trim] strips the characters " \t\r\n" from both ends. *)
Lemma trim_strip (s : string) :
  trim s = rstrip_by is_trim_char (lstrip_by is_trim_char s).
Proof.
  induction s as [|c s IH]; [reflexivity|].
  unfold trim. cbn [find_first_not_of find_last_not_of lstrip_by].
  destruct (is_trim_char c) eqn:Hc.
  - destruct (find_first_not_of s) as [f|] eqn:Hf; simpl.
    + destruct (find_last_not_of s) as [l|] eqn:Hl.
      * rewrite <- IH. unfold trim. rewrite Hf, Hl.
        replace (S l - S f) with (l - f) by lia. reflexivity.
      * apply find_last_none, find_first_none in Hl. congruence.
    + rewrite <- IH. unfold trim. rewrite Hf. reflexivity.
  - destruct (find_last_not_of s) as [l|] eqn:Hl.
    + rewrite (rstrip_substring (String c s) (S l)) by (simpl; rewrite Hl; reflexivity).
      replace (S l - 0 + 1) with (S (S l)) by lia. reflexivity.
    + rewrite (rstrip_substring (String c s) 0) by (simpl; rewrite Hl, Hc; reflexivity).
      reflexivity.
Qed.

Lemma trim_app_trim_char (s : string) (c : ascii) :
  is_trim_char c = true -> trim (s ++ String c "") = trim s.
Proof.
  intros Hc. rewrite !trim_strip, lstrip_app.
  destruct (all_chars is_trim_char s) eqn:Hs.
  - simpl. rewrite Hc. simpl.
    symmetry. apply rstrip_empty_iff.
    destruct (lstrip_decomp is_trim_char s) as (pre & Heq & Hpre).
    rewrite Heq, all_chars_app in Hs. apply andb_true_iff in Hs. apply Hs.
  - apply rstrip_app_strip. exact Hc.
Qed.

Lemma trim_empty_iff (s : string) : trim s = "" <-> all_chars is_trim_char s = true.
Proof.
  rewrite trim_strip, rstrip_empty_iff.
  destruct (lstrip_decomp is_trim_char s) as (pre & Heq & Hpre).
  rewrite Heq at 2. rewrite all_chars_app, Hpre. reflexivity.
Qed.

(** ** Lines of a stream *)

Lemma getline_loop_app (d : ascii) (l rest cur : string) :
  all_chars (fun c => negb (Ascii.eqb c d)) l = true ->
  getline_loop d (l ++ String d rest) cur = (cur ++ l) :: getline_loop d rest "".
Proof.
  revert cur. induction l as [|a l IH]; intros cur Hl.
  - rewrite str_app_nil, str_app_nil_r. simpl. rewrite Ascii.eqb_refl. reflexivity.
  - simpl in Hl. apply andb_true_iff in Hl as [Ha Hl]. apply negb_true_iff in Ha.
    rewrite str_app_cons. simpl. rewrite Ha. rewrite (IH _ Hl).
    rewrite str_app_assoc, str_app_cons, str_app_nil. reflexivity.
Qed.

Lemma getlines_join (ls : list string) :
  Forall (fun l => no_newline l = true) ls ->
  getlines "010" (join_lines nl ls) = ls.
Proof.
  unfold getlines. induction ls as [|l ls IH]; intros Hall; [reflexivity|].
  inversion Hall as [|? ? Hl Hls]; subst.
  change (join_lines nl (l :: ls)) with (l ++ nl ++ join_lines nl ls).
  unfold nl at 1. rewrite str_app_cons, str_app_nil.
  rewrite getline_loop_app by exact Hl. rewrite str_app_nil, IH by exact Hls. reflexivity.
Qed.

Lemma getline_loop_all (p : ascii -> bool) (d : ascii) (s cur : string) :
  p d = true ->
  (all_chars p cur && all_chars p s = true <-> Forall (fun l => all_chars p l = true) (getline_loop d s cur)).
Proof.
  intros Hd. revert cur. induction s as [|c s IH]; intros cur; simpl.
  - rewrite andb_true_r. destruct cur as [|a r].
    + split; intros; [constructor|reflexivity].
    + split; [intros H; constructor; [exact H|constructor]|intros H; inversion H; assumption].
  - destruct (Ascii.eqb c d) eqn:Hcd.
    + apply Ascii.eqb_eq in Hcd. subst c. rewrite Hd. simpl.
      rewrite List.Forall_cons_iff, <- (IH ""). simpl. rewrite andb_true_iff. reflexivity.
    + rewrite <- IH, all_chars_app. simpl. rewrite andb_true_r, andb_assoc. reflexivity.
Qed.

(** ** Lines of blanks *)

Lemma parse_line_blank (n : nat) (raw : string) :
  parse_line n raw = (None, []) <-> all_chars is_trim_char raw = true.
Proof.
  rewrite <- trim_empty_iff. unfold parse_line.
  destruct (trim raw) as [|a s]; [split; reflexivity|].
  split; [|discriminate]. cbv zeta.
  destruct (length (map trim (getlines "," (String a s))) <? 2)%nat; [discriminate|].
  destruct (negb (isCourseIdValid (toUpper (nth 0 (map trim (getlines "," (String a s))) "")))).
  - discriminate.
  - destruct (process_prereqs _ _). discriminate.
Qed.

Lemma load_lines_blank (lines : list string) :
  forall st : ParseState,
  (load_warnings (fold_left load_line lines st) = [] /\
   loadedCourseDirectory (fold_left load_line lines st) = ∅) <->
  (load_warnings st = [] /\ loadedCourseDirectory st = ∅ /\
   Forall (fun l => all_chars is_trim_char l = true) lines).
Proof.
  induction lines as [|raw lines IH]; intros st; simpl.
  - split; [intros [H1 H2]; auto|intros (H1 & H2 & _); auto].
  - rewrite IH, List.Forall_cons_iff, <- (parse_line_blank (S (lineNumber st)) raw).
    unfold load_line.
    destruct (parse_line (S (lineNumber st)) raw) as [[c|] ws]; simpl.
    + split; [intros (_ & H & _); exfalso; exact (insert_non_empty _ _ _ H)|].
      intros (_ & _ & [=] & _).
    + split.
      * intros (Hw & Hd & Hl). apply app_eq_nil in Hw as [-> ->]. auto.
      * intros (Hw & Hd & [= ->] & Hl). rewrite Hw. auto.
Qed.

(** ** The directory of a load *)

Lemma toupper_idem (c : ascii) : toupper (toupper c) = toupper c.
Proof. destruct c as [[] [] [] [] [] [] [] []]; reflexivity. Qed.

Lemma toUpper_idem (s : string) : toUpper (toUpper s) = toUpper s.
Proof. induction s as [|c s IH]; [reflexivity|]. simpl. rewrite toupper_idem, IH. reflexivity. Qed.

Lemma parse_line_course_wf (n : nat) (raw : string) (c : Course) (ws : list string) :
  parse_line n raw = (Some c, ws) -> course_wf (courseNumber c) c.
Proof.
  intros Hp. destruct (parse_line_some n raw c ws Hp) as (_ & Hnum & _ & Hv & Hproc).
  rewrite process_prereqs_refines in Hproc.
  destruct (spec_prereqs_props (courseNumber c) (drop 2 (map trim (getlines "," (trim raw)))) [])
    as (Hnd & Hall & Hsub & _).
  rewrite Hproc in Hnd, Hall, Hsub. cbn [fst] in Hnd, Hall, Hsub.
  unfold course_wf. split; [reflexivity|]. split; [exact Hv|]. split.
  { rewrite Hnum, toUpper_idem. reflexivity. }
  split; [exact Hnd|].
  rewrite List.Forall_forall in Hall |- *. intros p Hin. split; [exact (Hall p Hin)|].
  apply list_elem_of_In in Hin. pose proof (elem_of_sublist _ _ _ Hin Hsub) as Hin2.
  apply list_elem_of_In, in_map_iff in Hin2 as (f & <- & _). apply toUpper_idem.
Qed.

Lemma load_lines_course_wf (lines : list string) :
  forall st : ParseState,
  (forall k c, loadedCourseDirectory st !! k = Some c -> course_wf k c) ->
  forall k c, loadedCourseDirectory (fold_left load_line lines st) !! k = Some c -> course_wf k c.
Proof.
  induction lines as [|raw lines IH]; intros st Hwf; [exact Hwf|].
  simpl. apply IH. unfold load_line.
  destruct (parse_line (S (lineNumber st)) raw) as [[c|] ws] eqn:Hp; simpl; [|exact Hwf].
  intros k c' Hk. apply lookup_insert_Some in Hk as [[<- <-]|[_ Hk]].
  - exact (parse_line_course_wf _ _ _ _ Hp).
  - exact (Hwf k c' Hk).
Qed.

Lemma load_catalog_wf (fs : FileSystem) (self : Catalog) (fileName : string) :
  catalog_wf self -> catalog_wf (load fs self fileName).2.
Proof.
  intros Hwf. destruct (ok (load fs self fileName).1) eqn:Hok.
  - destruct (load_ok_true fs self fileName Hok) as (r & c & _ & _ & _ & ->).
    split; [reflexivity|]. simpl. apply load_lines_course_wf.
    intros k c' Hk. simpl in Hk. rewrite lookup_empty in Hk. discriminate.
  - rewrite (proj2 (proj2 (load_result_indep fs self self fileName)) Hok). exact Hwf.
Qed.

Lemma initial_catalog_wf : catalog_wf initial_catalog.
Proof.
  split; [reflexivity|]. intros k c Hk. simpl in Hk. rewrite lookup_empty in Hk. discriminate.
Qed.

Lemma run_loads_wf (calls : list (FileSystem * string)) : catalog_wf (run_loads calls).
Proof.
  unfold run_loads. generalize initial_catalog_wf. generalize initial_catalog.
  induction calls as [|[fs f] calls IH]; intros self Hwf; [exact Hwf|].
  simpl. apply IH. apply load_catalog_wf. exact Hwf.
Qed.

Lemma sorted_ids_length (dir : gmap string Course) : length (sorted_ids dir) = size dir.
Proof.
  unfold sorted_ids. rewrite (merge_sort_Permutation String.le (map fst (map_to_list dir))).
  rewrite length_map. apply length_map_to_list.
Qed.

Lemma lstrip_fixed (p : ascii -> bool) (s : string) :
  (forall c r, s = String c r -> p c = false) -> lstrip_by p s = s.
Proof. destruct s as [|c r]; intros H; [reflexivity|]. simpl. rewrite (H c r eq_refl). reflexivity. Qed.

(** Extra X1: [trim] cuts [s] into a prefix and a suffix made only of
    " \t\r\n" around its result, which neither starts nor ends with one
    of these characters; trimming twice is trimming once. *)
Theorem trim_spec (s : string) :
  (exists pre suf, s = pre ++ trim s ++ suf /\
                   all_chars is_trim_char pre = true /\ all_chars is_trim_char suf = true) /\
  (forall c r, trim s = String c r -> is_trim_char c = false) /\
  (forall t c, trim s = t ++ String c "" -> is_trim_char c = false) /\
  trim (trim s) = trim s.
Proof.
  assert (Hhead : forall c r, trim s = String c r -> is_trim_char c = false).
  { rewrite trim_strip. intros c r Ht.
    destruct (rstrip_head _ _ _ _ Ht) as [r' Hr']. exact (lstrip_head _ _ _ _ Hr'). }
  split; [|split; [exact Hhead|split]].
  - destruct (lstrip_decomp is_trim_char s) as (pre & Hs & Hpre).
    destruct (rstrip_decomp is_trim_char (lstrip_by is_trim_char s)) as (suf & Hl & Hsuf).
    exists pre, suf. rewrite trim_strip, <- Hl. auto.
  - rewrite trim_strip. intros t c Ht. exact (rstrip_last _ _ _ _ Ht).
  - rewrite (trim_strip (trim s)), (lstrip_fixed _ _ Hhead), trim_strip. apply rstrip_idem.
Qed.

(** Extra X2: [std::getline] over the text of a file whose lines hold no
    line feed and each end with one gives back exactly those lines, in
    order (an empty line included). *)
Theorem getlines_join_lines (ls : list string) :
  Forall (fun l => no_newline l = true) ls ->
  getlines "010" (join_lines nl ls) = ls.
Proof. exact (getlines_join ls). Qed.

Lemma getlines_join_lines_witness :
  Forall (fun l => no_newline l = true) ["CSCI200,Intro"; ""; " x "] /\
  getlines "010" (join_lines nl ["CSCI200,Intro"; ""; " x "]) = ["CSCI200,Intro"; ""; " x "].
Proof.
  assert (H : Forall (fun l => no_newline l = true) ["CSCI200,Intro"; ""; " x "])
    by (repeat constructor).
  split; [exact H|]. exact (getlines_join_lines _ H).
Defined.

Lemma parse_line_cr (n : nat) (raw : string) :
  parse_line n (raw ++ String "013" "") = parse_line n raw.
Proof. unfold parse_line. rewrite trim_app_trim_char by reflexivity. reflexivity. Qed.

Lemma join_lines_crlf (ls : list string) :
  join_lines crlf ls = join_lines nl (map (fun l => l ++ String "013" "") ls).
Proof.
  induction ls as [|l ls IH]; [reflexivity|].
  change (join_lines crlf (l :: ls)) with (l ++ crlf ++ join_lines crlf ls).
  change (join_lines nl (map (fun l => l ++ String "013" "") (l :: ls)))
    with ((l ++ String "013" "") ++ nl ++ join_lines nl (map (fun l => l ++ String "013" "") ls)).
  rewrite IH, str_app_assoc. unfold crlf. rewrite !str_app_cons, str_app_nil. reflexivity.
Qed.

Lemma fold_load_line_cr (ls : list string) :
  forall st : ParseState,
  fold_left load_line (map (fun l => l ++ String "013" "") ls) st = fold_left load_line ls st.
Proof.
  induction ls as [|l ls IH]; intros st; [reflexivity|]. simpl. rewrite IH.
  assert (load_line st (l ++ String "013" "") = load_line st l) as ->
    by (unfold load_line; rewrite parse_line_cr; reflexivity).
  reflexivity.
Qed.

(** Extra X3: a file whose lines end in CR LF loads exactly as the same
    file with LF line ends: the carriage return is trimmed with the
    other blanks, so courses, warnings, line numbers and the catalog are
    the same. *)
Theorem load_contents_crlf (self : Catalog) (resolved : string) (ls : list string) :
  Forall (fun l => no_newline l = true) ls ->
  load_contents self resolved (join_lines crlf ls) = load_contents self resolved (join_lines nl ls).
Proof.
  intros Hls. unfold load_contents.
  rewrite join_lines_crlf, !getlines_join.
  - unfold parse_lines. rewrite fold_load_line_cr. reflexivity.
  - exact Hls.
  - rewrite List.Forall_map. rewrite List.Forall_forall in Hls |- *. intros l Hl.
    unfold no_newline. rewrite all_chars_app. apply andb_true_iff. split; [exact (Hls l Hl)|reflexivity].
Qed.

Lemma load_contents_crlf_witness :
  Forall (fun l => no_newline l = true) ["CSCI200,Intro,CSCI101"; "CSCI101,Basics"] /\
  load_contents initial_catalog "/c.csv" (join_lines crlf ["CSCI200,Intro,CSCI101"; "CSCI101,Basics"])
  = load_contents initial_catalog "/c.csv" (join_lines nl ["CSCI200,Intro,CSCI101"; "CSCI101,Basics"]).
Proof.
  assert (H : Forall (fun l => no_newline l = true) ["CSCI200,Intro,CSCI101"; "CSCI101,Basics"])
    by (repeat constructor).
  split; [exact H|]. exact (load_contents_crlf _ _ _ H).
Defined.

(** Extra X4: after any sequence of loads on a fresh catalog, every
    course [get] returns is stored under its own identifier, which is a
    valid identifier in upper case; its prerequisites are valid upper-case
    identifiers without repeats; so [get] with an identifier that is not
    in upper case returns no course. *)
Theorem loaded_catalog_normalized (calls : list (FileSystem * string)) :
  let self := run_loads calls in
  (forall k c, get self k = Some c ->
     courseNumber c = k /\ isCourseIdValid k = true /\ toUpper k = k /\
     NoDup (prerequisites c) /\
     Forall (fun p => isCourseIdValid p = true /\ toUpper p = p) (prerequisites c)) /\
  (forall k, toUpper k <> k -> get self k = None).
Proof.
  cbv zeta. destruct (run_loads_wf calls) as [_ Hwf]. split.
  - intros k c Hk. exact (Hwf k c Hk).
  - intros k Hk. unfold get. destruct (courseDirectory (run_loads calls) !! k) as [c|] eqn:Hc;
      [|reflexivity].
    exfalso. apply Hk. apply (Hwf k c Hc).
Qed.

(** Extra X5: a successful load reports as [courses] the number of
    identifiers [ids] then lists. *)
Theorem load_courses_ids (fs : FileSystem) (self : Catalog) (fileName : string) :
  ok (load fs self fileName).1 = true ->
  courses (load fs self fileName).1 = length (ids (load fs self fileName).2).
Proof.
  intros Hok. destruct (load_ok_true fs self fileName Hok) as (r & c & _ & _ & _ & ->).
  simpl. unfold ids. simpl. symmetry. apply sorted_ids_length.
Qed.

Lemma load_courses_ids_witness :
  ok (load catalog_fs initial_catalog "c.csv").1 = true /\
  courses (load catalog_fs initial_catalog "c.csv").1 = 2%nat.
Proof.
  assert (H : ok (load catalog_fs initial_catalog "c.csv").1 = true) by (vm_compute; reflexivity).
  split; [exact H|]. rewrite (load_courses_ids _ _ _ H). vm_compute. reflexivity.
Defined.

(** Extra X6: a load fails without any warning exactly when the file is
    found and opened and holds only spaces, tabs, carriage returns and
    line feeds (an empty file included); every other failure comes with
    at least one warning. *)
Theorem load_silent_failure (fs : FileSystem) (self : Catalog) (fileName : string) :
  (ok (load fs self fileName).1 = false /\ warnings (load fs self fileName).1 = []) <->
  exists resolved contents,
    resolveCourseFilePath fs fileName = Some resolved /\
    fs_open fs resolved = Some contents /\
    all_chars is_trim_char contents = true.
Proof.
  destruct (decide (fileName = "")) as [->|Hne].
  { split; [intros [_ [=]]|]. intros (r & c & Hr & _). discriminate Hr. }
  rewrite load_nonempty by exact Hne.
  destruct (resolveCourseFilePath fs fileName) as [resolved|] eqn:Hres.
  2:{ split; [intros [_ [=]]|]. intros (r & c & [=] & _). }
  destruct (fs_open fs resolved) as [contents|] eqn:Hopen.
  2:{ split; [intros [_ [=]]|]. intros (r & c & [= <-] & Ho & _). congruence. }
  transitivity (all_chars is_trim_char contents = true).
  2:{ split; [intros H; exists resolved, contents; auto|].
      intros (r & c & [= <-] & Ho & H). congruence. }
  transitivity (Forall (fun l => all_chars is_trim_char l = true) (getlines "010" contents)).
  2:{ unfold getlines. rewrite <- (getline_loop_all is_trim_char "010" contents "" eq_refl).
      reflexivity. }
  pose proof (load_lines_blank (getlines "010" contents) init_parse) as Hb.
  cbn [load_warnings loadedCourseDirectory init_parse] in Hb.
  change (fold_left load_line (getlines "010" contents) init_parse)
    with (parse_lines (getlines "010" contents)) in Hb.
  unfold load_contents. case_bool_decide as Hemp; cbn [ok warnings].
  - split.
    + intros [_ Hw]. apply Hb. auto.
    + intros HF. split; [reflexivity|]. apply Hb. auto.
  - split; [intros [[=] _]|]. intros HF. exfalso. apply Hemp. apply Hb. auto.
Qed.

(** Extra X7: a path [resolveCourseFilePath] returns is absolute, exists,
    and is one of the candidates of the file name (see C3). *)
Theorem resolve_exists_absolute (fs : FileSystem) (fileName p : string) :
  resolveCourseFilePath fs fileName = Some p ->
  fs_exists fs p = true /\ is_absolute p = true /\ In p (search_candidates fs fileName).
Proof.
  intros Hr. pose proof (resolve_absolute fs fileName p Hr) as Habs.
  rewrite resolve_find in Hr. apply find_some in Hr as [Hin Hex]. auto.
Qed.

Lemma resolve_exists_absolute_witness :
  resolveCourseFilePath parent_file_fs "courses.csv" = Some "/home/u/courses.csv" /\
  fs_exists parent_file_fs "/home/u/courses.csv" = true.
Proof.
  assert (H : resolveCourseFilePath parent_file_fs "courses.csv" = Some "/home/u/courses.csv")
    by (vm_compute; reflexivity).
  split; [exact H|]. exact (proj1 (resolve_exists_absolute _ _ _ H)).
Defined.

(* ------------------------------------------------------------------ *)
(** ** The front end *)

Lemma load_fail_missing (fs : FileSystem) (self : Catalog) (fileName : string) :
  ok (load fs self fileName).1 = false -> missingPrerequisites (load fs self fileName).1 = [].
Proof.
  unfold load. destruct fileName as [|a s]; [reflexivity|].
  destruct (resolveCourseFilePath fs (String a s)) as [resolved|]; [|reflexivity].
  destruct (fs_open fs resolved) as [contents|]; [|reflexivity].
  unfold load_contents. case_bool_decide; [reflexivity|]. discriminate.
Qed.

Lemma catalog_wf_ids (self : Catalog) (k : string) :
  catalog_wf self -> In k (ids self) <-> is_Some (get self k).
Proof.
  intros [Hids _]. unfold ids, get. rewrite Hids. apply sorted_ids_spec.
Qed.

Lemma catalog_wf_get (self : Catalog) (k : string) (c : Course) :
  catalog_wf self -> get self k = Some c -> course_wf k c.
Proof. intros [_ Hwf] Hk. exact (Hwf k c Hk). Qed.

Lemma valid_nonempty (k : string) : isCourseIdValid k = true -> k <> "".
Proof. intros Hv ->. discriminate. Qed.

Lemma inv_core (w w' : Window) :
  window_inv w ->
  catalog w' = catalog w -> lastLoadResult w' = lastLoadResult w ->
  currentCatalogPath w' = currentCatalogPath w -> courseIds w' = courseIds w ->
  items_ok (prerequisiteItems w') -> window_inv w'.
Proof.
  intros (H1 & H2 & H3 & H4 & H5 & _) E1 E2 E3 E4 H6.
  unfold window_inv. rewrite E1, E2, E3, E4.
  split; [exact H1|]. split; [exact H2|]. split; [exact H3|]. split; [exact H4|].
  split; [exact H5|]. exact H6.
Qed.

Lemma inv_items (w : Window) : window_inv w -> items_ok (prerequisiteItems w).
Proof. intros (_ & _ & _ & _ & _ & H). exact H. Qed.

Lemma populate_items_ok (w : Window) (oc : option Course) :
  catalog_wf (catalog w) ->
  (forall c, oc = Some c -> exists k, get (catalog w) k = Some c) ->
  items_ok (prerequisiteItems (populateCourseDetails w oc)).
Proof.
  intros Hwf Hoc. unfold populateCourseDetails.
  destruct oc as [c|]; [|constructor].
  destruct (Hoc c eq_refl) as [k Hk].
  destruct (catalog_wf_get _ _ _ Hwf Hk) as (_ & _ & _ & _ & Hps).
  cbn [prerequisiteItems]. destruct (prerequisites c) as [|p ps] eqn:Hp.
  - constructor; [left; reflexivity|constructor].
  - unfold items_ok. rewrite List.Forall_map. rewrite List.Forall_forall in Hps |- *.
    intros q Hq. right. unfold prereq_item.
    destruct (get (catalog w) q); exact (Hps q Hq).
Qed.

Lemma inv_populate (w : Window) (oc : option Course) :
  window_inv w ->
  (forall c, oc = Some c -> exists k, get (catalog w) k = Some c) ->
  window_inv (populateCourseDetails w oc).
Proof.
  intros Hinv Hoc. apply (inv_core w); [exact Hinv|..];
    try (unfold populateCourseDetails; destruct oc; reflexivity).
  apply populate_items_ok; [apply Hinv|exact Hoc].
Qed.

Ltac same_core Hinv :=
  match goal with
  | |- window_inv ?w' =>
      let w := match type of Hinv with window_inv ?w => w end in
      apply (inv_core w w'); [exact Hinv|reflexivity|reflexivity|reflexivity|reflexivity|
                              apply (inv_items w Hinv)]
  end.

Lemma inv_showMessage (w : Window) (m : string) (t : nat) :
  window_inv w -> window_inv (showMessage w m t).
Proof. intros Hinv. same_core Hinv. Qed.

Lemma inv_set_timer (w : Window) (b : bool) : window_inv w -> window_inv (set_timer w b).
Proof. intros Hinv. same_core Hinv. Qed.

Lemma inv_selectRow (w : Window) (row : nat) : window_inv w -> window_inv (selectRow w row).
Proof. intros Hinv. unfold selectRow. destruct (row <? length (courseIds w))%nat; [|exact Hinv]. same_core Hinv. Qed.

Lemma inv_handleSearchEdited (w : Window) (t : string) :
  window_inv w -> window_inv (handleSearchEdited w t).
Proof. intros Hinv. unfold handleSearchEdited. destruct (qtrimmed t); apply inv_set_timer, Hinv. Qed.

Lemma inv_setSearchText (w : Window) (t : string) :
  window_inv w -> window_inv (setSearchText w t).
Proof.
  intros Hinv. unfold setSearchText. destruct (String.eqb (searchText w) t); [exact Hinv|].
  apply inv_handleSearchEdited. same_core Hinv.
Qed.

Lemma inv_performSearch (w : Window) : window_inv w -> window_inv (performSearch w).
Proof.
  intros Hinv. unfold performSearch.
  destruct (toUpper (qtrimmed (searchText w))) as [|a s] eqn:Hkey; [exact Hinv|].
  destruct (get (catalog w) (String a s)) as [c|] eqn:Hc; [|apply inv_showMessage, Hinv].
  assert (window_inv (populateCourseDetails w (Some c))) as Hp.
  { apply inv_populate; [exact Hinv|]. intros c' [= <-]. eauto. }
  destruct (find_row _ _ _); [apply inv_selectRow|]; exact Hp.
Qed.

Lemma inv_loadCatalogFromPath (fs : FileSystem) (w : Window) (p : string) :
  window_inv w -> window_inv (loadCatalogFromPath fs w p).
Proof.
  intros Hinv. unfold loadCatalogFromPath.
  destruct (load fs (catalog w) p) as [r cat] eqn:Hl.
  destruct (ok r) eqn:Hok; cbn [negb].
  - assert (ok (load fs (catalog w) p).1 = true) as Hok' by (rewrite Hl; exact Hok).
    destruct (load_ok_true fs (catalog w) p Hok') as (resolved & contents & Hres & _ & _ & Heq).
    pose proof (load_catalog_wf fs (catalog w) p (proj1 (proj2 Hinv))) as Hwf.
    rewrite Hl in Heq, Hwf. injection Heq as -> ->. cbn [snd] in Hwf.
    unfold updateWarningsPane, updateStatusFromLoad, showMessage, refreshCourseList, window_inv.
    cbn [catalog lastLoadResult currentCatalogPath courseIds prerequisiteItems ok path
         missingPrerequisites courseDirectory].
    split; [reflexivity|]. split; [exact Hwf|]. split.
    { right. exact (resolve_absolute fs p resolved Hres). }
    split; [reflexivity|]. split; [discriminate|]. apply (inv_items w Hinv).
  - assert (ok (load fs (catalog w) p).1 = false) as Hok' by (rewrite Hl; exact Hok).
    pose proof (proj2 (proj2 (load_result_indep fs (catalog w) (catalog w) p)) Hok') as Hcat.
    pose proof (load_fail_missing fs (catalog w) p Hok') as Hmiss.
    rewrite Hl in Hcat, Hmiss. cbn [fst snd] in Hcat, Hmiss. subst cat.
    destruct Hinv as (H1 & H2 & H3 & _ & _ & H6).
    unfold showMessage, updateWarningsPane, window_inv.
    cbn [catalog lastLoadResult currentCatalogPath courseIds prerequisiteItems].
    split; [exact H1|]. split; [exact H2|]. split; [exact H3|].
    split; [congruence|]. split; [intros _; exact Hmiss|exact H6].
Qed.

Lemma inv_step (w : Window) (e : Event) : window_inv w -> window_inv (step w e).1.
Proof.
  intros Hinv. destruct e as [fs chosen|fs|row|text| |i|]; cbn [step fst].
  - unfold openCatalog. destruct chosen; [exact Hinv|apply inv_loadCatalogFromPath, Hinv].
  - unfold reloadCatalog. destruct (currentCatalogPath w); [exact Hinv|].
    apply inv_loadCatalogFromPath, Hinv.
  - destruct (row <? length (courseIds w))%nat; [|exact Hinv]. cbn [fst].
    pose proof (inv_selectRow w row Hinv) as Hs.
    unfold handleCourseSelection.
    destruct (courseIdForRow (courseIds (selectRow w row)) (Z.of_nat row)) as [|a s];
      [exact Hs|].
    apply inv_populate; [exact Hs|]. intros c Hc. eauto.
  - apply inv_handleSearchEdited. same_core Hinv.
  - destruct (timerActive w); [|exact Hinv]. apply inv_performSearch, inv_set_timer, Hinv.
  - unfold handlePrerequisiteActivated. destruct (nth_error (prerequisiteItems w) i) as [it|];
      [|exact Hinv].
    destruct (item_data it); [exact Hinv|]. apply inv_performSearch, inv_setSearchText, Hinv.
  - exact Hinv.
Qed.

Lemma inv_run_events (w : Window) (es : list Event) : window_inv w -> window_inv (run_events w es).
Proof.
  unfold run_events. revert w. induction es as [|e es IH]; intros w Hinv; [exact Hinv|].
  simpl. apply IH, inv_step, Hinv.
Qed.

Lemma inv_startup (fs : FileSystem) (arg : option string) : window_inv (startup fs arg).
Proof.
  unfold startup, MainWindow, showMessage, refreshCourseList, window_inv.
  cbn [catalog lastLoadResult currentCatalogPath courseIds prerequisiteItems].
  split; [reflexivity|]. split.
  { destruct arg; [apply load_catalog_wf|]; apply initial_catalog_wf. }
  split; [left; reflexivity|]. split; [discriminate|]. split; [reflexivity|constructor].
Qed.

Lemma inv_reachable (fs : FileSystem) (arg : option string) (es : list Event) :
  window_inv (run_events (startup fs arg) es).
Proof. apply inv_run_events, inv_startup. Qed.

Lemma toupper_tolower (c : ascii) : toupper (tolower c) = toupper c.
Proof. destruct c as [[] [] [] [] [] [] [] []]; reflexivity. Qed.

Lemma toUpper_toLower (s : string) : toUpper (toLower s) = toUpper s.
Proof. induction s as [|c s IH]; [reflexivity|]. simpl. rewrite toupper_tolower, IH. reflexivity. Qed.

Lemma equal_ci_upper (a b : string) :
  toUpper a = a -> toUpper b = b -> equal_ci a b = true -> a = b.
Proof.
  intros Ha Hb Hab. apply String.eqb_eq in Hab.
  rewrite <- Ha, <- Hb, <- toUpper_toLower, Hab, toUpper_toLower. reflexivity.
Qed.

Lemma find_row_some (l : list string) (key x : string) :
  In x l -> equal_ci x key = true ->
  forall n, exists r, find_row l key n = Some r /\ (n <= r)%nat /\ (r - n < length l)%nat /\
                      equal_ci (nth (r - n) l "") key = true.
Proof.
  intros Hin Hx. induction l as [|y l IH]; [destruct Hin|]. intros n. simpl.
  destruct (equal_ci y key) eqn:Hy.
  - exists n. rewrite Nat.sub_diag. simpl. split; [reflexivity|]. split; [lia|]. split; [lia|exact Hy].
  - destruct Hin as [<-|Hin]; [congruence|].
    destruct (IH Hin (S n)) as (r & Hr & Hle & Hlt & Heq). exists r.
    split; [exact Hr|]. split; [lia|].
    replace (r - n)%nat with (S (r - S n)) by lia. simpl. split; [lia|exact Heq].
Qed.

Lemma alnum_not_space (c : ascii) : isalpha c || isdigit c = true -> qt_isspace c = false.
Proof. destruct c as [[] [] [] [] [] [] [] []]; first [reflexivity|discriminate]. Qed.

Lemma rstrip_fixed (p : ascii -> bool) (s : string) :
  all_chars (fun c => negb (p c)) s = true -> rstrip_by p s = s.
Proof.
  induction s as [|c s IH]; [reflexivity|]. simpl. intros [Hc Hs]%andb_true_iff.
  apply negb_true_iff in Hc. rewrite (IH Hs). destruct s; [rewrite Hc|]; reflexivity.
Qed.

Lemma valid_qtrimmed (k : string) : isCourseIdValid k = true -> qtrimmed k = k.
Proof.
  intros Hv. destruct k as [|a s]; [discriminate|].
  pose proof (courseId_loop_chars _ _ _ Hv) as Hall.
  assert (all_chars (fun c => negb (qt_isspace c)) (String a s) = true) as Hns.
  { apply (all_chars_impl (fun c => isalpha c || isdigit c)); [|exact Hall].
    intros c Hc. rewrite (alnum_not_space c Hc). reflexivity. }
  unfold qtrimmed. rewrite lstrip_fixed.
  - apply rstrip_fixed, Hns.
  - intros c r [= <- <-]. simpl in Hns. apply andb_true_iff in Hns as [Hc _].
    apply negb_true_iff in Hc. exact Hc.
Qed.

Lemma ids_upper (w : Window) (k : string) :
  window_inv w -> In k (courseIds w) -> toUpper k = k /\ isCourseIdValid k = true.
Proof.
  intros (Hids & Hwf & _) Hin. rewrite Hids in Hin.
  apply (catalog_wf_ids _ _ Hwf) in Hin as [c Hc].
  destruct (catalog_wf_get _ _ _ Hwf Hc) as (_ & Hv & Hu & _). auto.
Qed.

Lemma performSearch_found (w : Window) (c : Course) :
  window_inv w ->
  get (catalog w) (toUpper (qtrimmed (searchText w))) = Some c ->
  let key := toUpper (qtrimmed (searchText w)) in
  courseTitle (performSearch w) = key ++ " — " ++ courseName c /\
  (exists row, selectedRow (performSearch w) = Some row /\ nth row (courseIds w) "" = key) /\
  prerequisiteItems (performSearch w) = prerequisiteItems (populateCourseDetails w (Some c)) /\
  searchText (performSearch w) = searchText w /\
  statusMessage (performSearch w) = statusMessage w.
Proof.
  intros Hinv Hc. cbv zeta.
  pose proof Hinv as (Hids & Hwf & _).
  destruct (catalog_wf_get _ _ _ Hwf Hc) as (Hnum & Hv & _).
  assert (Hin : In (toUpper (qtrimmed (searchText w))) (ids (catalog w)))
    by (apply (catalog_wf_ids _ _ Hwf); rewrite Hc; eexists; reflexivity).
  destruct (find_row_some (ids (catalog w)) _ _ Hin
              (String.eqb_refl _) 0) as (r & Hr & _ & Hlt & Heq).
  rewrite Nat.sub_0_r in Hlt, Heq.
  assert (Hnth : nth r (ids (catalog w)) "" = toUpper (qtrimmed (searchText w))).
  { apply equal_ci_upper; [|apply toUpper_idem|exact Heq].
    rewrite <- Hids. apply (ids_upper w); [exact Hinv|]. rewrite Hids. apply nth_In. exact Hlt. }
  unfold performSearch.
  destruct (toUpper (qtrimmed (searchText w))) as [|a s] eqn:Hkey.
  { discriminate Hv. }
  rewrite Hc, Hr. unfold selectRow.
  replace (length (courseIds (populateCourseDetails w (Some c)))) with (length (ids (catalog w)))
    by (rewrite <- Hids; reflexivity).
  apply Nat.ltb_lt in Hlt. rewrite Hlt. cbn.
  rewrite Hnum. split; [reflexivity|]. split; [exists r; split; [reflexivity|]; rewrite Hids; exact Hnth|].
  auto.
Qed.

Lemma setSearchText_fields (w : Window) (t : string) :
  searchText (setSearchText w t) = t /\ catalog (setSearchText w t) = catalog w /\
  courseIds (setSearchText w t) = courseIds w.
Proof.
  unfold setSearchText. destruct (String.eqb (searchText w) t) eqn:He.
  - apply String.eqb_eq in He. auto.
  - unfold handleSearchEdited. destruct (qtrimmed t); auto.
Qed.



(** Extra X8: in every state the window reaches from [main] (with or
    without a file on the command line) through any sequence of user
    actions, the course list shows exactly [catalog.ids()], so each row
    names a course [get] finds and every course has a row; and the
    stored path for Reload is empty or absolute. *)
Theorem gui_list_matches_catalog (fs : FileSystem) (arg : option string) (es : list Event) :
  let w := run_events (startup fs arg) es in
  courseIds w = ids (catalog w) /\
  (forall k, In k (courseIds w) <-> is_Some (get (catalog w) k)) /\
  (currentCatalogPath w = "" \/ is_absolute (currentCatalogPath w) = true).
Proof.
  cbv zeta. destruct (inv_reachable fs arg es) as (Hids & Hwf & Hpath & _).
  split; [exact Hids|]. split; [|exact Hpath].
  intros k. rewrite Hids. apply catalog_wf_ids, Hwf.
Qed.

(** Extra X9: a click on a row of the course list selects the row and
    shows the course whose identifier the row displays: its title line
    reads "<ID> — <name>". *)
Theorem gui_click_shows_course (fs : FileSystem) (arg : option string) (es : list Event) (row : nat) :
  (row < length (courseIds (run_events (startup fs arg) es)))%nat ->
  let w := run_events (startup fs arg) es in
  let w' := (step w (ClickCourse row)).1 in
  selectedRow w' = Some row /\
  exists c, get (catalog w) (nth row (courseIds w) "") = Some c /\
            courseNumber c = nth row (courseIds w) "" /\
            courseTitle w' = courseNumber c ++ " — " ++ courseName c.
Proof.
  cbv zeta. set (w := run_events (startup fs arg) es). intros Hlt.
  pose proof (inv_reachable fs arg es) as Hinv. fold w in Hinv.
  pose proof Hinv as (Hids & Hwf & _).
  assert (Hin : In (nth row (courseIds w) "") (courseIds w)) by (apply nth_In; exact Hlt).
  destruct (ids_upper w _ Hinv Hin) as [_ Hv].
  assert (Hin2 : In (nth row (courseIds w) "") (ids (catalog w))) by (rewrite <- Hids; exact Hin).
  apply (catalog_wf_ids _ _ Hwf) in Hin2 as [c Hc].
  destruct (catalog_wf_get _ _ _ Hwf Hc) as (Hnum & _).
  cbn [step]. apply Nat.ltb_lt in Hlt as Hltb. rewrite Hltb. cbn [fst].
  unfold handleCourseSelection, courseIdForRow, rowCount.
  assert (Hsel : selectRow w row =
    {| catalog := catalog w; lastLoadResult := lastLoadResult w;
       currentCatalogPath := currentCatalogPath w; courseIds := courseIds w;
       selectedRow := Some row; searchText := searchText w; timerActive := timerActive w;
       courseTitle := courseTitle w; prerequisiteItems := prerequisiteItems w;
       warningsVisible := warningsVisible w; warningsItems := warningsItems w;
       statusMessage := statusMessage w |}) by (unfold selectRow; rewrite Hltb; reflexivity).
  rewrite Hsel. cbn [courseIds catalog].
  replace ((Z.of_nat row <? 0)%Z || (Z.of_nat (length (courseIds w)) <=? Z.of_nat row)%Z)
    with false by (symmetry; apply orb_false_iff; split; [apply Z.ltb_ge|apply Z.leb_gt]; lia).
  rewrite Nat2Z.id.
  destruct (nth row (courseIds w) "") as [|a s] eqn:Hn; [discriminate Hv|].
  rewrite Hc. cbn. split; [reflexivity|]. exists c. auto.
Qed.

Lemma gui_click_shows_course_witness :
  (1 < length (courseIds (run_events (startup catalog_fs (Some "c.csv")) [])))%nat /\
  courseTitle (step (run_events (startup catalog_fs (Some "c.csv")) []) (ClickCourse 1)).1
    = "CSCI200 — Intro to CS".
Proof.
  assert (H : (1 < length (courseIds (run_events (startup catalog_fs (Some "c.csv")) [])))%nat)
    by (vm_compute; lia).
  split; [exact H|].
  destruct (gui_click_shows_course catalog_fs (Some "c.csv") [] 1 H) as (_ & c & Hc & Hnum & Ht).
  rewrite Ht. vm_compute in Hc. injection Hc as <-. reflexivity.
Defined.

(** Extra X10: the list model gives an empty identifier for a row
    exactly when the row is out of its range: in every state the window
    reaches, each row in range names a course. *)
Theorem gui_row_in_range (fs : FileSystem) (arg : option string) (es : list Event) (row : Z) :
  let w := run_events (startup fs arg) es in
  courseIdForRow (courseIds w) row <> "" <-> (0 <= row < rowCount (courseIds w))%Z.
Proof.
  cbv zeta. set (w := run_events (startup fs arg) es).
  pose proof (inv_reachable fs arg es) as Hinv. fold w in Hinv.
  unfold courseIdForRow, rowCount.
  destruct ((row <? 0)%Z || (Z.of_nat (length (courseIds w)) <=? row)%Z) eqn:Hr.
  - apply orb_true_iff in Hr. rewrite Z.ltb_lt, Z.leb_le in Hr.
    split; [intros H; exfalso; apply H; reflexivity|lia].
  - apply orb_false_iff in Hr as [H1 H2]. apply Z.ltb_ge in H1. apply Z.leb_gt in H2.
    split; [lia|intros _].
    assert (Hlt : (Z.to_nat row < length (courseIds w))%nat) by lia.
    destruct (ids_upper w _ Hinv (nth_In _ "" Hlt)) as [_ Hv]. exact (valid_nonempty _ Hv).
Qed.

(** Extra X11: [performSearch] looks the search text up trimmed and in
    upper case: for an empty key it does nothing; for a key the catalog
    lacks it only shows "Course not found: <KEY>" for 4 seconds; for a
    key it has it shows that course and selects the list row holding the
    key. The search text is ASCII text. *)
Theorem gui_search_outcome (fs : FileSystem) (arg : option string) (es : list Event) :
  ascii_text (searchText (run_events (startup fs arg) es)) = true ->
  let w := run_events (startup fs arg) es in
  let key := toUpper (qtrimmed (searchText w)) in
  (key = "" -> performSearch w = w) /\
  (key <> "" -> get (catalog w) key = None ->
   performSearch w = showMessage w ("Course not found: " ++ key) 4000) /\
  (forall c, get (catalog w) key = Some c ->
   courseTitle (performSearch w) = key ++ " — " ++ courseName c /\
   exists row, selectedRow (performSearch w) = Some row /\ nth row (courseIds w) "" = key).
Proof.
  cbv zeta. set (w := run_events (startup fs arg) es). intros _.
  pose proof (inv_reachable fs arg es) as Hinv. fold w in Hinv.
  split; [|split].
  - intros Hk. unfold performSearch. rewrite Hk. reflexivity.
  - intros Hne Hnone. unfold performSearch.
    destruct (toUpper (qtrimmed (searchText w))) as [|a s]; [congruence|]. rewrite Hnone. reflexivity.
  - intros c Hc. destruct (performSearch_found w c Hinv Hc) as (Ht & Hrow & _). auto.
Qed.

Lemma gui_search_outcome_witness :
  let w := run_events (startup catalog_fs (Some "c.csv")) [EditSearch " csci101 "] in
  ascii_text (searchText w) = true /\
  courseTitle (performSearch w) = "CSCI101 — Programming Fundamentals".
Proof.
  cbv zeta.
  assert (H : ascii_text (searchText (run_events (startup catalog_fs (Some "c.csv"))
                                                 [EditSearch " csci101 "])) = true)
    by (vm_compute; reflexivity).
  split; [exact H|].
  destruct (gui_search_outcome catalog_fs (Some "c.csv") [EditSearch " csci101 "] H)
    as (_ & _ & Hfound).
  assert (Hg : get (catalog (run_events (startup catalog_fs (Some "c.csv")) [EditSearch " csci101 "]))
                 (toUpper (qtrimmed (searchText (run_events (startup catalog_fs (Some "c.csv"))
                                                            [EditSearch " csci101 "]))))
               = Some {| courseNumber := "CSCI101"; courseName := "Programming Fundamentals";
                         prerequisites := [] |}) by (vm_compute; reflexivity).
  rewrite (proj1 (Hfound _ Hg)). vm_compute. reflexivity.
Defined.

(** Extra X12: activating a prerequisite item of the details pane puts
    its identifier in the search field and searches it: the window then
    shows that course and selects its row, or reports "Course not found:
    <ID>" when the catalog lacks it. *)
Theorem gui_prerequisite_jump (fs : FileSystem) (arg : option string) (es : list Event)
    (i : nat) (it : PrereqItem) :
  nth_error (prerequisiteItems (run_events (startup fs arg) es)) i = Some it ->
  item_data it <> "" ->
  let w := run_events (startup fs arg) es in
  let p := item_data it in
  let w' := (step w (ActivatePrerequisite i)).1 in
  searchText w' = p /\
  (get (catalog w) p = None -> statusMessage w' = ("Course not found: " ++ p, 4000)) /\
  (forall c, get (catalog w) p = Some c ->
   courseTitle w' = p ++ " — " ++ courseName c /\
   exists row, selectedRow w' = Some row /\ nth row (courseIds w) "" = p).
Proof.
  cbv zeta. set (w := run_events (startup fs arg) es). intros Hit Hne.
  pose proof (inv_reachable fs arg es) as Hinv. fold w in Hinv.
  assert (Hok : isCourseIdValid (item_data it) = true /\ toUpper (item_data it) = item_data it).
  { pose proof (inv_items w Hinv) as Hitems. unfold items_ok in Hitems.
    rewrite List.Forall_forall in Hitems.
    destruct (Hitems it (nth_error_In _ _ Hit)) as [H|H]; [congruence|exact H]. }
  destruct Hok as [Hv Hu].
  set (w1 := setSearchText w (item_data it)).
  destruct (setSearchText_fields w (item_data it)) as (Hs1 & Hc1 & Hi1). fold w1 in Hs1, Hc1, Hi1.
  assert (Hinv1 : window_inv w1) by (apply inv_setSearchText, Hinv).
  assert (Hkey : toUpper (qtrimmed (searchText w1)) = item_data it)
    by (rewrite Hs1, valid_qtrimmed by exact Hv; exact Hu).
  assert (Hw' : (step w (ActivatePrerequisite i)).1 = performSearch w1).
  { cbn [step fst]. unfold handlePrerequisiteActivated. rewrite Hit.
    destruct (item_data it) as [|a s] eqn:Hd; [congruence|]. reflexivity. }
  rewrite Hw'. split; [|split].
  - unfold performSearch. rewrite Hkey.
    destruct (item_data it) as [|a s]; [congruence|].
    rewrite Hc1. destruct (get (catalog w) (String a s)) as [c|]; [|exact Hs1].
    destruct (find_row _ _ _); [unfold selectRow; destruct (_ <? _)%nat|]; exact Hs1.
  - intros Hnone. unfold performSearch. rewrite Hkey.
    destruct (item_data it) as [|a s]; [congruence|]. rewrite Hc1, Hnone. reflexivity.
  - intros c Hc. rewrite <- Hc1, <- Hkey in Hc.
    destruct (performSearch_found w1 c Hinv1 Hc) as (Ht & (row & Hrow & Hnth) & _).
    rewrite Hkey in Ht, Hnth. rewrite Hi1 in Hnth. split; [exact Ht|]. exists row. auto.
Qed.

Lemma gui_prerequisite_jump_witness :
  let w := run_events (startup catalog_fs (Some "c.csv")) [ClickCourse 1] in
  nth_error (prerequisiteItems w) 0 =
    Some {| item_text := "CSCI101"; item_data := "CSCI101";
            item_toolTip := "Programming Fundamentals"; item_icon := Some SP_DialogApplyButton |} /\
  courseTitle (step w (ActivatePrerequisite 0)).1 = "CSCI101 — Programming Fundamentals".
Proof.
  cbv zeta.
  assert (H : nth_error (prerequisiteItems (run_events (startup catalog_fs (Some "c.csv")) [ClickCourse 1])) 0 =
    Some {| item_text := "CSCI101"; item_data := "CSCI101";
            item_toolTip := "Programming Fundamentals"; item_icon := Some SP_DialogApplyButton |})
    by (vm_compute; reflexivity).
  split; [exact H|].
  destruct (gui_prerequisite_jump catalog_fs (Some "c.csv") [ClickCourse 1] 0 _ H
              ltac:(discriminate)) as (_ & _ & Hfound).
  cbn [item_data] in Hfound.
  assert (Hg : get (catalog (run_events (startup catalog_fs (Some "c.csv")) [ClickCourse 1])) "CSCI101"
               = Some {| courseNumber := "CSCI101"; courseName := "Programming Fundamentals";
                         prerequisites := [] |}) by (vm_compute; reflexivity).
  exact (proj1 (Hfound _ Hg)).
Defined.

Lemma prereq_item_data (self : Catalog) (q : string) : item_data (prereq_item self q) = q.
Proof. unfold prereq_item. destruct (get self q); reflexivity. Qed.

Lemma prereq_item_icon (self : Catalog) (q : string) :
  item_icon (prereq_item self q) = Some SP_MessageBoxWarning <-> get self q = None.
Proof.
  unfold prereq_item. destruct (get self q); cbn [item_icon]; split; congruence.
Qed.



(** Extra X13: after a successful load, the details pane of a course
    with prerequisites lists them in order, and marks one with the
    warning icon exactly when the load reported it as a missing
    prerequisite of that course. *)
Theorem gui_prerequisite_flags (fs : FileSystem) (arg : option string) (es : list Event)
    (k : string) (c : Course) :
  ok (lastLoadResult (run_events (startup fs arg) es)) = true ->
  get (catalog (run_events (startup fs arg) es)) k = Some c ->
  prerequisites c <> [] ->
  let w := run_events (startup fs arg) es in
  let items := prerequisiteItems (populateCourseDetails w (Some c)) in
  map item_data items = prerequisites c /\
  Forall (fun it => item_icon it = Some SP_MessageBoxWarning <->
                    In (reference_description (item_data it) k)
                       (missingPrerequisites (lastLoadResult w))) items.
Proof.
  cbv zeta. set (w := run_events (startup fs arg) es). intros Hok Hg Hne.
  pose proof (inv_reachable fs arg es) as Hinv. fold w in Hinv.
  destruct Hinv as (_ & Hwf & _ & Hmiss & _).
  rewrite (Hmiss Hok). clear Hmiss.
  destruct (catalog_wf_get _ _ _ Hwf Hg) as (_ & _ & _ & _ & Hps).
  unfold populateCourseDetails. cbn [prerequisiteItems].
  destruct (prerequisites c) as [|p0 ps] eqn:Hp; [congruence|]. rewrite <- Hp in Hps |- *.
  split.
  - rewrite map_map. erewrite map_ext; [apply map_id|]. apply prereq_item_data.
  - rewrite List.Forall_map, List.Forall_forall. intros q Hq.
    rewrite prereq_item_data, prereq_item_icon.
    rewrite List.Forall_forall in Hps. destruct (Hps q Hq) as [Hvq _].
    destruct (proj2 (missing_set_spec (courseDirectory (catalog w))) (reference_description q k))
      as [Hto Hfrom].
    split.
    + intros Hnone. apply Hfrom. exists k, c, q. unfold get in Hg, Hnone. auto.
    + intros Hin. destruct (Hto Hin) as (owner & c' & p' & Ho & Hp' & Hn & Heq).
      destruct (catalog_wf_get _ owner c' Hwf Ho) as (_ & _ & _ & _ & Hps').
      rewrite List.Forall_forall in Hps'. destruct (Hps' p' Hp') as [Hvp' _].
      rewrite (reference_description_inj q p' k owner Hvq Hvp' Heq). exact Hn.
Qed.

Lemma gui_prerequisite_flags_witness :
  let w := run_events (startup missing_file_fs None) [OpenCatalog dangling_fs "/c.csv"] in
  ok (lastLoadResult w) = true /\ get (catalog w) "CSCI200" = Some dangling_course /\
  map item_data (prerequisiteItems (populateCourseDetails w (Some dangling_course)))
    = ["CSCI101"; "MATH999"].
Proof.
  cbv zeta.
  assert (H1 : ok (lastLoadResult (run_events (startup missing_file_fs None)
                                               [OpenCatalog dangling_fs "/c.csv"])) = true)
    by (vm_compute; reflexivity).
  assert (H2 : get (catalog (run_events (startup missing_file_fs None)
                                        [OpenCatalog dangling_fs "/c.csv"])) "CSCI200"
               = Some dangling_course) by (vm_compute; reflexivity).
  split; [exact H1|]. split; [exact H2|].
  exact (proj1 (gui_prerequisite_flags missing_file_fs None _ _ _ H1 H2 ltac:(discriminate))).
Defined.

(** Extra X14: when a load from the window fails, the window keeps the
    catalog it showed, its course list and the path Reload uses; it
    records the failed result, shows "Unable to load catalog: <path>"
    for 4 seconds, lists the warnings of the load, and Show Missing
    Prereqs then reports that all prerequisites were found. *)
Theorem gui_failed_load (fs : FileSystem) (w : Window) (p : string) :
  ok (load fs (catalog w) p).1 = false ->
  let w' := loadCatalogFromPath fs w p in
  catalog w' = catalog w /\ courseIds w' = courseIds w /\
  currentCatalogPath w' = currentCatalogPath w /\
  lastLoadResult w' = (load fs (catalog w) p).1 /\
  statusMessage w' = ("Unable to load catalog: " ++ p, 4000) /\
  warningsItems w' = warnings (load fs (catalog w) p).1 /\
  showMissingPrerequisites w' =
    Information "Missing Prerequisites" "All prerequisites were found in the catalog.".
Proof.
  intros Hok. cbv zeta.
  pose proof (proj2 (proj2 (load_result_indep fs (catalog w) (catalog w) p)) Hok) as Hcat.
  pose proof (load_fail_missing fs (catalog w) p Hok) as Hmiss.
  unfold loadCatalogFromPath, showMissingPrerequisites.
  destruct (load fs (catalog w) p) as [r cat]. cbn [fst snd] in Hok, Hcat, Hmiss |- *.
  subst cat. rewrite Hok. cbn. rewrite Hmiss.
  repeat split. destruct (warnings r); reflexivity.
Qed.

Lemma gui_failed_load_witness :
  let w := run_events (startup missing_file_fs None) [OpenCatalog dangling_fs "/c.csv"] in
  ok (load dangling_fs (catalog w) "/none.csv").1 = false /\
  missing_set (courseDirectory (catalog (loadCatalogFromPath dangling_fs w "/none.csv")))
    = ["MATH999 (referenced by CSCI200)"] /\
  showMissingPrerequisites (loadCatalogFromPath dangling_fs w "/none.csv") =
    Information "Missing Prerequisites" "All prerequisites were found in the catalog.".
Proof.
  cbv zeta.
  assert (H : ok (load dangling_fs (catalog (run_events (startup missing_file_fs None)
                   [OpenCatalog dangling_fs "/c.csv"])) "/none.csv").1 = false)
    by (vm_compute; reflexivity).
  destruct (gui_failed_load dangling_fs _ "/none.csv" H) as (Hc & _ & _ & _ & _ & _ & Hs).
  split; [exact H|]. split; [|exact Hs].
  rewrite Hc. vm_compute. reflexivity.
Defined.

(** Extra X15: after a successful load from the window, it shows the
    new catalog with no row selected, Reload uses the absolute path the
    file was found at, the status bar reads "Loaded <n> courses from
    <path>" with n the number of rows of the list, and the warnings pane
    lists the warnings of the load. *)
Theorem gui_successful_load (fs : FileSystem) (w : Window) (p : string) :
  ok (load fs (catalog w) p).1 = true ->
  let w' := loadCatalogFromPath fs w p in
  catalog w' = (load fs (catalog w) p).2 /\ lastLoadResult w' = (load fs (catalog w) p).1 /\
  courseIds w' = ids (catalog w') /\ selectedRow w' = None /\
  currentCatalogPath w' = path (lastLoadResult w') /\
  is_absolute (currentCatalogPath w') = true /\
  statusMessage w' =
    ("Loaded " ++ to_string (length (courseIds w')) ++ " courses from " ++ currentCatalogPath w', 0) /\
  warningsItems w' = warnings (lastLoadResult w').
Proof.
  intros Hok. cbv zeta.
  destruct (load_ok_true fs (catalog w) p Hok) as (resolved & contents & Hres & _ & _ & Heq).
  unfold loadCatalogFromPath, updateWarningsPane, updateStatusFromLoad, showMessage,
    refreshCourseList.
  rewrite Heq. cbn [fst snd ok negb catalog lastLoadResult courseIds selectedRow
                    currentCatalogPath statusMessage warningsItems path courses warnings ids
                    sortedCourseIds].
  rewrite sorted_ids_length.
  split; [reflexivity|]. split; [reflexivity|]. split; [reflexivity|]. split; [reflexivity|].
  split; [reflexivity|]. split; [exact (resolve_absolute fs p resolved Hres)|].
  split; [reflexivity|]. destruct (load_warnings _); reflexivity.
Qed.

Lemma gui_successful_load_witness :
  ok (load catalog_fs (catalog (startup missing_file_fs None)) "c.csv").1 = true /\
  statusMessage (loadCatalogFromPath catalog_fs (startup missing_file_fs None) "c.csv")
    = ("Loaded 2 courses from /data/c.csv", 0).
Proof.
  assert (H : ok (load catalog_fs (catalog (startup missing_file_fs None)) "c.csv").1 = true)
    by (vm_compute; reflexivity).
  split; [exact H|].
  destruct (gui_successful_load catalog_fs _ "c.csv" H) as (_ & _ & _ & _ & _ & _ & Hs & _).
  rewrite Hs. vm_compute. reflexivity.
Defined.



(** Extra X17: when [main] preloads the file named on the command line,
    the window shows the loaded catalog, but records neither its path nor
    its load result: Reload answers "Load a catalog first." and Show
    Missing Prereqs reports that all prerequisites were found. *)
Theorem gui_startup_preload (fs fs' : FileSystem) (f : string) :
  let w := startup fs (Some f) in
  catalog w = (load fs initial_catalog f).2 /\ courseIds w = ids (catalog w) /\
  currentCatalogPath w = "" /\
  reloadCatalog fs' w = (w, Some (Information "Reload Catalog" "Load a catalog first.")) /\
  showMissingPrerequisites w =
    Information "Missing Prerequisites" "All prerequisites were found in the catalog.".
Proof. cbv zeta. repeat split. Qed.
